(** * FacialPain: the analysis notebook, embedded and checked

    A shallow embedding of the data-cleaning, cohort-filtering, descriptive
    and machine-learning cells of [FacialPain.ipynb].

    Conventions of the embedding:
    - a pandas [DataFrame] is a list of rows in positional order, each row
      carrying its index label (the labels come from [read_csv], [drop]
      works on labels);
    - a [float64] cell is an [option Q]: [None] is NaN, and the arithmetic
      of the notebook (sums, means, variances) is carried out exactly on
      rationals;
    - an [object] cell read from the file is an [option string];
    - a Python [dict] is a [gmap];
    - a Python computation that may raise lives in the [py] monad. *)

From Stdlib Require Import ZArith QArith Qabs Qminmax Lia Lqa List.
From stdpp Require Import gmap strings.
Import ListNotations.

Local Open Scope string_scope.

(** ** Python outcomes *)

Inductive exn : Set :=
| ValueError
| IndexError.

Inductive py (A : Type) : Type :=
| Ret (a : A)
| Raise (e : exn).

Arguments Ret {A} a.
Arguments Raise {A} e.

#[global] Instance py_ret : MRet py := fun A a => Ret a.

#[global] Instance py_bind : MBind py := fun A B k c =>
  match c with
  | Ret a => k a
  | Raise e => Raise e
  end.

Definition raises {A : Type} (c : py A) : Prop :=
  exists e, c = Raise e.

(** ** Exact arithmetic helpers *)

Definition Qn (n : nat) : Q := inject_Z (Z.of_nat n).

Definition Qsum (xs : list Q) : Q := fold_right Qplus 0%Q xs.

(** The arithmetic mean of a list of numbers. *)
Definition arithmetic_mean (xs : list Q) : Q := (Qsum xs / Qn (length xs))%Q.

(** ** The data frame *)

(** One line of [TN Dataset 041725.csv].  The questionnaire columns are
    looked up by their column name, as the notebook does. *)
Record Row : Type := {
  PAT_ID : string;
  age : option Q;
  D_GENDER_DESC : option string;
  D_ICD_DESC : option string;
  IP_R_NEU_CSSRS_SUICIDAL_THOUGHTS : option string;
  IP_R_SW_CSSRS_SUICIDAL_BEHAVIOR : option string;
  bpi : string -> option Q
}.

Definition DataFrame : Type := list (Z * Row).

Definition index (d : DataFrame) : list Z := List.map fst d.
Definition rows (d : DataFrame) : list Row := List.map snd d.

(** ** pandas primitives used by the notebook *)

Module Pandas.

(** [Series.map(dict)]: a key of the dict gives its value, anything else
    (NaN included) gives NaN. *)
Definition Series_map {V : Type} (m : gmap string V) (x : option string)
  : option V :=
  match x with
  | Some s => m !! s
  | None => None
  end.

(** [DataFrame.sum(axis=1, skipna=True)] on one row: NaN cells count for
    nothing, an all-NaN row sums to 0. *)
Fixpoint sum_skipna (cells : list (option Q)) : Q :=
  match cells with
  | [] => 0
  | Some x :: rest => x + sum_skipna rest
  | None :: rest => sum_skipna rest
  end.

Fixpoint count_notna (cells : list (option Q)) : nat :=
  match cells with
  | [] => O
  | Some _ :: rest => S (count_notna rest)
  | None :: rest => count_notna rest
  end.

(** [DataFrame.mean(axis=1, skipna=True)] on one row: the mean of the
    cells that are present, NaN when none is. *)
Definition mean_skipna (cells : list (option Q)) : option Q :=
  match count_notna cells with
  | O => None
  | S _ => Some (sum_skipna cells / Qn (count_notna cells))%Q
  end.

(** [isnull().any(axis=1)] on one row. *)
Definition any_null (cells : list (option Q)) : bool :=
  existsb (fun c => match c with None => true | Some _ => false end) cells.

(** [df[cols]] on one row. *)
Definition select (cols : list string) (r : Row) : list (option Q) :=
  List.map (bpi r) cols.

(** [df.drop(labels)]: every row whose label is listed goes. *)
Definition drop (labels : list Z) (d : DataFrame) : DataFrame :=
  List.filter (fun ir => negb (existsb (Z.eqb (fst ir)) labels)) d.

End Pandas.

(** ** 1.1 Data cleaning *)

Module Cleaning.
Import Pandas.

Definition ICD_map : gmap string string :=
  list_to_map
    [ ("ATYPICAL FACIAL PAIN", "AFP");
      ("ATYPICAL FACE PAIN", "AFP");
      ("CLONIC HEMIFACIAL SPASM", "HFS");
      ("MULTIPLE SCLEROSIS", "MS");
      ("TRIGEMINAL NEURALGIA", "TN");
      ("CHRONIC PAIN DUE TO TRAUMA", "Posttraumatic");
      ("POSTHERPETIC TRIGEMINAL NEURALGIA", "PHTN");
      ("OTH TRIGEMINAL AUTONOM CEPHALGIAS INTRACTABLE ", "Other");
      ("OTH TRIGEMINAL AUTONOM CEPHALGIAS NOT INTRACT", "Other");
      ("OTHER TRIGEMINAL AUTONOM CEPHALGIAS ", "Other");
      ("OTHER DISORDERS OF TRIGEMINAL NERVE", "Other");
      ("OTHER SPECIFIED TRIGEMINAL NERVE DISORDERS", "Other");
      ("OTHER FACIAL NERVE DISORDERS", "Other") ].

(** The category codes that occur as values of [ICD_map]. *)
Definition categories : list string :=
  ["TN"; "AFP"; "HFS"; "MS"; "Posttraumatic"; "PHTN"; "Other"].

(** [df['ICD_Clean'] = df['D_ICD_DESC'].map(ICD_map)] *)
Definition ICD_Clean (r : Row) : option string :=
  Series_map ICD_map (D_ICD_DESC r).

(** [df['ICD_TN'] = df['ICD_Clean'].apply(lambda x: 1 if x == 'TN' else 0)] *)
Definition ICD_TN (r : Row) : Z :=
  match ICD_Clean r with
  | Some c => if String.eqb c "TN" then 1 else 0
  | None => 0
  end.

(** The cleaning cell as a Python computation on one raw diagnosis cell:
    it assigns the mapped column and goes on; nothing in it raises. *)
Definition derive_diagnosis (raw : option string) : py (option string) :=
  Ret (Series_map ICD_map raw).

Definition CSRSS_map : gmap string Q :=
  list_to_map [ ("No", 0%Q); ("Yes", 1%Q) ].

Definition CSRSS_Thoughts (r : Row) : option Q :=
  Series_map CSRSS_map (IP_R_NEU_CSSRS_SUICIDAL_THOUGHTS r).

Definition CSRSS_Behaviors (r : Row) : option Q :=
  Series_map CSRSS_map (IP_R_SW_CSSRS_SUICIDAL_BEHAVIOR r).

(** [df[['CSRSS_Thoughts', 'CSRSS_Behaviors']].sum(axis=1, skipna=True)] *)
Definition CSRSS_sum (r : Row) : Q :=
  sum_skipna [CSRSS_Thoughts r; CSRSS_Behaviors r].

(** [.apply(lambda x: 1 if x > 0 else 0)] *)
Definition CSRSS_Either (r : Row) : Z :=
  if Qlt_le_dec 0 (CSRSS_sum r) then 1 else 0.

End Cleaning.

(** ** 2.3 BPI-Facial responses: columns, cohort filter, domain scores *)

Module BPI.
Import Pandas Cleaning.

Definition amb_painintensity : list string :=
  [ "CIRCLE_THE_ONE_NUMBER_THAT_DESCRIBES_YOUR_PAIN_RIGHT_NOW";
    "AMB_NSR_R_PAIN_AT_ITS_WORST_IN_LAST_WEEK";
    "AMB_NSR_R_PAIN_AT_ITS_LEAST_IN_LAST_WEEK";
    "AMB_NSR_R_PAIN_AT_ITS_AVERAGE_IN_LAST_WEEK" ].

Definition amb_interference : list string :=
  [ "AMB_NSR_R_GENERAL_ACTIVITY";
    "AMB_NSR_R_MOOD";
    "AMB_NSR_R_NORMAL_WORK";
    "AMB_NSR_R_RELATIONS_WITH_OTHER_PEOPLE";
    "AMB_NSR_R_SLEEP";
    "AMB_NSR_R_ENJOYMENT_OF_LIFE";
    "ABM_NSR_R_WALKING_ABILITY" ].

Definition amb_specific : list string :=
  [ "AMB_NSR_R_EATING_A_MEAL";
    "AMB_NSR_R_TOUCHING_YOUR_FACE";
    "AMB_NSR_R_BRUSHING_OR_FLOSSING_YOUR_TEETH";
    "AMB_NSR_R_SMILING_OR_LAUGHING";
    "AMB_NSR_R_TALKING";
    "AMB_NSR_R_OPENING_YOUR_MOUTH_WIDELY";
    "AMB_NSR_R_EATING_HARD_FOODS_LIKE_APPLES" ].

Definition total_score : string :=
  "AMB_NSR_R_BRIEF_PAIN_INVENTORY_FACIAL_SCORE".

Definition amb_any : list string :=
  amb_painintensity ++ amb_interference ++ amb_specific ++ [total_score].

(** [d[d[cols].isnull().any(axis=1)].index]: the labels of the rows with
    a missing cell in one of [cols]. *)
Definition missing_index (cols : list string) (d : DataFrame) : list Z :=
  index (List.filter (fun ir => any_null (select cols (snd ir))) d).

(** The cohort filter of the notebook for a list of required columns:
    flag the incomplete rows, then drop them by label. *)
Definition cohort_filter (cols : list string) (d : DataFrame) : DataFrame :=
  drop (missing_index cols d) d.

Definition amb_df_missing (df : DataFrame) : list Z :=
  missing_index amb_any df.

(** [amb_df = df[amb_any].copy(); amb_df = amb_df.drop(amb_df_missing)].
    Rows are kept whole here; the column projection is applied where a
    column list is used. *)
Definition amb_df (df : DataFrame) : DataFrame :=
  cohort_filter amb_any df.

Definition amb_total_scores (df : DataFrame) : list (option Q) :=
  List.map (fun r => bpi r total_score) (rows (amb_df df)).

(** [amb_df[cols].copy().mean(axis = 1, skipna = True)] *)
Definition domain_mean (cols : list string) (r : Row) : option Q :=
  mean_skipna (select cols r).

Definition amb_painintensity_df (df : DataFrame) : list (option Q) :=
  List.map (domain_mean amb_painintensity) (rows (amb_df df)).

Definition amb_interference_df (df : DataFrame) : list (option Q) :=
  List.map (domain_mean amb_interference) (rows (amb_df df)).

Definition amb_specific_df (df : DataFrame) : list (option Q) :=
  List.map (domain_mean amb_specific) (rows (amb_df df)).

(** [is_sui = df.copy().drop(amb_df_missing)['CSRSS_Either'].values] *)
Definition is_sui (df : DataFrame) : list Z :=
  List.map CSRSS_Either (rows (drop (amb_df_missing df) df)).


(** [Series.dropna().values] *)
Fixpoint dropna (s : list (option Q)) : list Q :=
  match s with
  | [] => []
  | Some x :: rest => x :: dropna rest
  | None :: rest => dropna rest
  end.

(** [series[mask]] with a numpy boolean array: positional selection, an
    [IndexError] when the lengths differ. *)
Fixpoint select_mask (mask : list bool) (xs : list Q) : list Q :=
  match mask, xs with
  | true :: m, x :: rest => x :: select_mask m rest
  | false :: m, _ :: rest => select_mask m rest
  | _, _ => []
  end.

Definition boolean_index (mask : list bool) (xs : list Q) : py (list Q) :=
  if Nat.eqb (length mask) (length xs)
  then Ret (select_mask mask xs)
  else Raise IndexError.

(** [amb_painintensity_df.dropna()[is_sui == 1].values] and its
    complement, for any of the three domains. *)
Definition split_sui (domain : DataFrame -> list (option Q)) (df : DataFrame)
  : py (list Q) :=
  boolean_index (List.map (Z.eqb 1) (is_sui df)) (dropna (domain df)).

Definition split_notsui (domain : DataFrame -> list (option Q))
  (df : DataFrame) : py (list Q) :=
  boolean_index (List.map (Z.eqb 0) (is_sui df)) (dropna (domain df)).


Definition painintensity_sui := split_sui amb_painintensity_df.
Definition painintensity_notsui := split_notsui amb_painintensity_df.
Definition interference_sui := split_sui amb_interference_df.
Definition interference_notsui := split_notsui amb_interference_df.
Definition specific_sui := split_sui amb_specific_df.
Definition specific_notsui := split_notsui amb_specific_df.

End BPI.

(** ** 2.1 Demographics *)

Module Demographics.

(** The demographics cells run on [df] as loaded and cleaned, before any
    row is dropped. *)

(** [df.shape[0]] *)
Definition n_entries (df : DataFrame) : nat := length df.

(** [len(df['PAT_ID'].unique())] *)
Definition n_patients (df : DataFrame) : nat :=
  length (nodup String.string_dec (List.map PAT_ID (rows df))).

Definition is_female (r : Row) : bool :=
  match D_GENDER_DESC r with
  | Some g => String.eqb g "Female"
  | None => false
  end.

(** [len(df[df['D_GENDER_DESC'] == 'Female'])] *)
Definition n_female (df : DataFrame) : nat :=
  length (List.filter is_female (rows df)).

End Demographics.

(** ** 3. The frame of the machine-learning cells *)

Module ML.
Import Pandas Cleaning BPI.


(** [ml_df['Pain_Intensity'] = ml_df[amb_painintensity].sum(axis=1, skipna=True)]
    and its two siblings. *)
Definition Pain_Intensity (r : Row) : Q :=
  sum_skipna (select amb_painintensity r).

Definition Interference_General (r : Row) : Q :=
  sum_skipna (select amb_interference r).

Definition Interference_Face (r : Row) : Q :=
  sum_skipna (select amb_specific r).

(** What the notebook computes for one domain on one row: the items are
    all present, the score is their arithmetic mean and is not null, and
    the covariate of the machine-learning cells is their sum. *)
Definition scored (cols : list string) (covariate : Row -> Q) (r : Row) : Prop :=
  exists items m,
    select cols r = List.map Some items
    /\ domain_mean cols r = Some m
    /\ (m == arithmetic_mean items)%Q
    /\ (covariate r == Qsum items)%Q.

(** [continuous_features], as read off one row of [ml_df]. *)
Definition continuous_features (r : Row) : list (option Q) :=
  [ age r;
    Some (Pain_Intensity r);
    Some (Interference_General r);
    Some (Interference_Face r) ].

End ML.

(** ** 2.2 Chi-square tests of independence *)

Module ChiSquare.
Import Cleaning.

Section GroupBy.
Context {K : Type}.
Variable Keq_dec : forall x y : K, {x = y} + {x <> y}.
Variable Kleb : K -> K -> bool.

Fixpoint insert_key (x : K) (l : list K) : list K :=
  match l with
  | [] => [x]
  | h :: t => if Kleb x h then x :: l else h :: insert_key x t
  end.

Definition sort_keys (l : list K) : list K :=
  fold_right insert_key [] l.

Fixpoint present (col : list (option K)) : list K :=
  match col with
  | [] => []
  | Some k :: rest => k :: present rest
  | None :: rest => present rest
  end.

(** The groups of [groupby(col)]: distinct keys, NaN left out, in
    ascending key order. *)
Definition group_keys (col : list (option K)) : list K :=
  sort_keys (nodup Keq_dec (present col)).

Definition key_is (k : K) (o : option K) : bool :=
  match o with
  | Some k' => if Keq_dec k k' then true else false
  | None => false
  end.

(** The values of the rows of one group, in row order. *)
Definition group_values (kv : list (option K * Z)) (k : K) : list Z :=
  List.map snd (List.filter (fun p => key_is k (fst p)) kv).

End GroupBy.

Fixpoint insert_by_count (x : Z * nat) (l : list (Z * nat)) : list (Z * nat) :=
  match l with
  | [] => [x]
  | h :: t => if Nat.ltb (snd x) (snd h)
              then h :: insert_by_count x t
              else x :: l
  end.

(** [Series.value_counts()] inside a group: one entry per value that
    occurs, most frequent first; the sort is stable, so equal counts stay
    in ascending value order. *)
Definition value_counts (vals : list Z) : list (Z * nat) :=
  fold_right insert_by_count []
    (List.map (fun v => (v, count_occ Z.eq_dec vals v))
              (sort_keys Z.leb (nodup Z.eq_dec vals))).

(** [df.groupby(key)[val].value_counts().values] *)
Definition groupby_value_counts {K : Type}
  (Keq_dec : forall x y : K, {x = y} + {x <> y}) (Kleb : K -> K -> bool)
  (kv : list (option K * Z)) : list nat :=
  flat_map (fun k => List.map snd (value_counts (group_values Keq_dec kv k)))
           (group_keys Keq_dec Kleb (List.map fst kv)).

Definition Table : Type := (nat * nat) * (nat * nat).

(** [ndarray.reshape(2, 2)] *)
Definition reshape_2_2 (v : list nat) : py Table :=
  match v with
  | [a; b; c; d] => Ret ((a, b), (c, d))
  | _ => Raise ValueError
  end.

Definition csrss_counts_gender (df : DataFrame) : py Table :=
  reshape_2_2
    (groupby_value_counts String.string_dec String.leb
       (List.map (fun r => (D_GENDER_DESC r, CSRSS_Either r)) (rows df))).

Definition gender_group_size (df : DataFrame) (g : string) : nat :=
  length (List.filter (fun r => key_is String.string_dec g (D_GENDER_DESC r))
                      (rows df)).

Definition tn_group_size (df : DataFrame) (g : Z) : nat :=
  length (List.filter (fun r => key_is Z.eq_dec g (Some (ICD_TN r))) (rows df)).

Definition csrss_counts_tn (df : DataFrame) : py Table :=
  reshape_2_2
    (groupby_value_counts Z.eq_dec Z.leb
       (List.map (fun r => (Some (ICD_TN r), CSRSS_Either r)) (rows df))).

(** The contingency table in the sense of the specification: the cell
    for group [g] and flag value [e] counts the rows that have both. *)
Definition cell {K : Type} (Keq_dec : forall x y : K, {x = y} + {x <> y})
  (kv : list (option K * Z)) (g : K) (e : Z) : nat :=
  length (List.filter (fun p => key_is Keq_dec g (fst p) && Z.eqb (snd p) e) kv).

Definition contingency_table {K : Type}
  (Keq_dec : forall x y : K, {x = y} + {x <> y})
  (kv : list (option K * Z)) (g1 g2 : K) : Table :=
  ((cell Keq_dec kv g1 0, cell Keq_dec kv g1 1),
   (cell Keq_dec kv g2 0, cell Keq_dec kv g2 1)).

(** Yates' continuity correction of one observed count. *)
Definition yates (o e : Q) : Q :=
  let diff := (e - o)%Q in
  let magnitude := Qmin (1 # 2) (Qabs diff) in
  match Qcompare diff 0 with
  | Gt => (o + magnitude)%Q
  | Lt => (o - magnitude)%Q
  | Eq => o
  end.

Definition term (o e : Q) : Q :=
  ((yates o e - e) * (yates o e - e) / e)%Q.

(** [scipy.stats.chi2_contingency] on a 2x2 table, a library function,
    written out from its definition (expected frequencies from the
    margins, Yates' correction as there is one degree of freedom), up to
    the statistic and the degrees of freedom; the p-value is the upper
    tail of the chi-square distribution at that statistic and is a
    function of these two.  A zero expected frequency is a [ValueError]. *)
Definition chi2_contingency (t : Table) : py (Q * Z) :=
  let '((a, b), (c, d)) := t in
  let n := Qn (a + b + c + d) in
  let ea := (Qn (a + b) * Qn (a + c) / n)%Q in
  let eb := (Qn (a + b) * Qn (b + d) / n)%Q in
  let ec := (Qn (c + d) * Qn (a + c) / n)%Q in
  let ed := (Qn (c + d) * Qn (b + d) / n)%Q in
  if Qeq_bool ea 0 || Qeq_bool eb 0 || Qeq_bool ec 0 || Qeq_bool ed 0
  then Raise ValueError
  else Ret ((term (Qn a) ea + term (Qn b) eb
             + term (Qn c) ec + term (Qn d) ed)%Q, 1%Z).

Definition chi2_gender (df : DataFrame) : py (Q * Z) :=
  t ← csrss_counts_gender df; chi2_contingency t.

Definition chi2_tn (df : DataFrame) : py (Q * Z) :=
  t ← csrss_counts_tn df; chi2_contingency t.

End ChiSquare.

(** ** 2.3 Welch's test and the degrees of freedom that are printed *)

Module Welch.
Local Open Scope Q_scope.

Definition Qlen (xs : list Q) : Q := Qn (length xs).

Definition mean (xs : list Q) : Q := arithmetic_mean xs.

(** Sample variance, [ddof = 1]. *)
Definition var (xs : list Q) : Q :=
  Qsum (List.map (fun x => (x - mean xs) * (x - mean xs)) xs) / (Qlen xs - 1).

(** The Welch-Satterthwaite degrees of freedom that
    [ttest_ind(a, b, equal_var=False)] uses for its p-value. *)
Definition welch_dof (a b : list Q) : Q :=
  let vn1 := var a / Qlen a in
  let vn2 := var b / Qlen b in
  (vn1 + vn2) * (vn1 + vn2)
  / (vn1 * vn1 / (Qlen a - 1) + vn2 * vn2 / (Qlen b - 1)).

(** The degrees of freedom the notebook prints in [t(%.0f)]:
    [len(a) + len(b) - 2]. *)
Definition printed_dof (a b : list Q) : Z :=
  Z.of_nat (length a) + Z.of_nat (length b) - 2.

End Welch.

(** ** 3.1 Logistic regression: the two decision thresholds *)

Module Classifier.
Local Open Scope Q_scope.

Section Thresholds.
(** A row of [X_test] as the fitted pipeline sees it. *)
Context {Sample : Type}.
(** The fitted pipeline: preprocessing followed by the linear decision
    value of the logistic regression. *)
Variable decision_function : Sample -> Q.
(** The logistic link that turns a decision value into the probability
    of class 1; it is kept abstract, the exponential not being a
    rational function. *)
Variable expit : Q -> Q.

(** [pipeline.predict_proba(X_test)[:, 1]] *)
Definition y_proba (X_test : list Sample) : list Q :=
  List.map (fun x => expit (decision_function x)) X_test.

(** [pipeline.predict(X_test)]: class 1 where the decision value is
    positive, that is, where the probability exceeds one half. *)
Definition y_pred_default (X_test : list Sample) : list Z :=
  List.map (fun x => if Qlt_le_dec 0 (decision_function x) then 1%Z else 0%Z)
           X_test.

Definition threshold : Q := 3 # 10.

(** [(y_proba >= threshold).astype(int)] *)
Definition y_pred_alt (X_test : list Sample) : list Z :=
  List.map (fun p => if Qle_bool threshold p then 1%Z else 0%Z)
           (y_proba X_test).

Definition n_positive (pred : list Z) : nat :=
  count_occ Z.eq_dec pred 1%Z.

End Thresholds.

End Classifier.

(** ** 3.2 K-means: the silhouette sweep *)

Module Clustering.
Local Open Scope Q_scope.

(** Python's [range(lo, hi)]. *)
Definition range (lo hi : nat) : list nat := seq lo (hi - lo).

Definition Qmin_list (xs : list Q) : Q :=
  match xs with
  | [] => 0
  | x :: rest => fold_left Qmin rest x
  end.

(** The range of a silhouette coefficient. *)
Definition unit_interval (s : Q) : Prop := -(1) <= s /\ s <= 1.

Section Sweep.
(** A row of [X_transformed]. *)
Context {Point : Type}.
(** The metric of [silhouette_score] (Euclidean by default, hence kept
    abstract: a square root is not a rational function). *)
Variable dist : Point -> Point -> Q.
(** [KMeans(n_clusters=k, random_state=0).fit(X).labels_]; the fit
    raises when it is given fewer samples than clusters. *)
Variable KMeans_fit : nat -> list Point -> py (list nat).

(** The members of cluster [l], paired data and labels. *)
Definition members (X : list Point) (labels : list nat) (l : nat)
  : list Point :=
  List.map fst (List.filter (fun xl => Nat.eqb (snd xl) l) (combine X labels)).

Definition dist_sum (x : Point) (ys : list Point) : Q :=
  Qsum (List.map (dist x) ys).

(** Mean distance of [x] to the other members of its own cluster. *)
Definition intra (X : list Point) (labels : list nat) (x : Point) (l : nat) : Q :=
  dist_sum x (members X labels l) / (Qn (length (members X labels l)) - 1).

(** Mean distance of [x] to the members of the nearest other cluster. *)
Definition inter (X : list Point) (labels : list nat) (x : Point) (l : nat) : Q :=
  Qmin_list
    (List.map (fun l' => dist_sum x (members X labels l')
                         / Qn (length (members X labels l')))
              (List.filter (fun l' => negb (Nat.eqb l' l))
                           (nodup Nat.eq_dec labels))).

(** The silhouette coefficient of one sample: [(b - a) / max(a, b)],
    and 0 for the only member of a cluster. *)
Definition silhouette_sample (X : list Point) (labels : list nat)
  (xl : Point * nat) : Q :=
  let '(x, l) := xl in
  if Nat.eqb (length (members X labels l)) 1 then 0
  else
    let a := intra X labels x l in
    let b := inter X labels x l in
    (b - a) / Qmax a b.

(** [sklearn.metrics.silhouette_score(X, labels)], a library function,
    written out from its definition: the mean over all samples of the
    silhouette coefficient; a [ValueError] unless
    [2 <= n_labels <= n_samples - 1]. *)
Definition silhouette_score (X : list Point) (labels : list nat) : py Q :=
  let n_labels := length (nodup Nat.eq_dec labels) in
  if Nat.eqb (length labels) (length X)
     && Nat.leb 2 n_labels && Nat.ltb n_labels (length X)
  then Ret (arithmetic_mean (List.map (silhouette_sample X labels) (combine X labels)))
  else Raise ValueError.

(** The body of the loop for one [k]. *)
Definition sweep_step (X : list Point) (k : nat) : py Q :=
  labels ← KMeans_fit k X; silhouette_score X labels.

(** The score appended for [k], read off the loop body. *)
Definition score_of (X : list Point) (k : nat) : Q :=
  match sweep_step X k with
  | Ret s => s
  | Raise _ => 0
  end.

(** [for k in range(2, 11): ... silhouette_scores.append(score)] from
    [silhouette_scores = []].  The list belongs to the notebook and is
    filled in place, so the result is the list as the loop leaves it,
    together with the exception that stopped the loop, if one did: the
    scores appended before an exception stay in the list. *)
Fixpoint sweep_from (X : list Point) (ks : list nat) (silhouette_scores : list Q)
  : list Q * option exn :=
  match ks with
  | [] => (silhouette_scores, None)
  | k :: rest =>
      match sweep_step X k with
      | Ret score => sweep_from X rest (silhouette_scores ++ [score])
      | Raise e => (silhouette_scores, Some e)
      end
  end.

Definition silhouette_sweep (X : list Point) : list Q * option exn :=
  sweep_from X (range 2 11) [].

End Sweep.

End Clustering.

(** ** Concrete frames used in the examples *)

Module Fixtures.

Definition mk (id sex diagnosis thoughts : string) (cells : string -> option Q)
  : Row :=
  {| PAT_ID := id; age := Some 50%Q;
     D_GENDER_DESC := Some sex;
     D_ICD_DESC := Some diagnosis;
     IP_R_NEU_CSSRS_SUICIDAL_THOUGHTS := Some thoughts;
     IP_R_SW_CSSRS_SUICIDAL_BEHAVIOR := None;
     bpi := cells |}.

Definition TN : string := "TRIGEMINAL NEURALGIA".
Definition AFP : string := "ATYPICAL FACIAL PAIN".

(** Every questionnaire column answered with the same number. *)
Definition all_items (v : Q) : string -> option Q := fun _ => Some v.

Definition mood_missing : string -> option Q :=
  fun c => if String.eqb c "AMB_NSR_R_MOOD" then None else Some 5%Q.

Definition unmapped_row : Row :=
  mk "P0" "Female" "MIGRAINE" "No" (all_items 5).

Definition row_of_ones : Row := mk "P0" "Female" TN "No" (all_items 1).

(** Five rows, the last one with a missing item. *)
Definition df_one_incomplete : DataFrame :=
  [ (0%Z, mk "P0" "Female" TN "No" (all_items 5));
    (1%Z, mk "P1" "Female" TN "Yes" (all_items 5));
    (2%Z, mk "P2" "Male" TN "No" (all_items 5));
    (3%Z, mk "P3" "Male" TN "Yes" (all_items 5));
    (4%Z, mk "P4" "Female" TN "No" mood_missing) ].

(** Eight complete rows: the women (all with trigeminal neuralgia) mostly
    screen negative, the men (all with atypical facial pain) mostly
    screen positive. *)
Definition df_men_mostly_positive : DataFrame :=
  [ (0%Z, mk "P0" "Female" TN "No" (all_items 5));
    (1%Z, mk "P1" "Female" TN "No" (all_items 5));
    (2%Z, mk "P2" "Female" TN "No" (all_items 5));
    (3%Z, mk "P3" "Female" TN "Yes" (all_items 5));
    (4%Z, mk "P4" "Male" AFP "No" (all_items 5));
    (5%Z, mk "P5" "Male" AFP "Yes" (all_items 5));
    (6%Z, mk "P6" "Male" AFP "Yes" (all_items 5));
    (7%Z, mk "P7" "Male" AFP "Yes" (all_items 5)) ].

(** Four complete rows with a single man, the only patient without
    trigeminal neuralgia. *)
Definition df_single_man : DataFrame :=
  [ (0%Z, mk "P0" "Female" TN "No" (all_items 5));
    (1%Z, mk "P1" "Female" TN "No" (all_items 5));
    (2%Z, mk "P2" "Female" TN "Yes" (all_items 5));
    (3%Z, mk "P3" "Male" AFP "No" (all_items 5)) ].

(** Seven complete rows: two positive screens with pain 0 and 10, five
    negative screens with pain 5, 5, 5, 5 and 6. *)
Definition df_unequal_variances : DataFrame :=
  [ (0%Z, mk "P0" "Female" TN "Yes" (all_items 0));
    (1%Z, mk "P1" "Female" TN "Yes" (all_items 10));
    (2%Z, mk "P2" "Female" TN "No" (all_items 5));
    (3%Z, mk "P3" "Male" TN "No" (all_items 5));
    (4%Z, mk "P4" "Female" TN "No" (all_items 5));
    (5%Z, mk "P5" "Male" TN "No" (all_items 5));
    (6%Z, mk "P6" "Female" TN "No" (all_items 6)) ].

(** A piecewise-linear link and three decision values for the threshold
    comparison. *)
Definition hard_sigmoid (z : Q) : Q :=
  Qmax 0 (Qmin 1 ((1 # 2) + z / 4)).

Definition decisions : list Q := [(-2)%Q; (-(1 # 2))%Q; 1%Q].

(** Twelve points on a line, the distance of the line, and a stand-in
    clustering that deals the points out to the [k] clusters in turn. *)
Definition line_points : list Z := List.map Z.of_nat (seq 0 12).

Definition ten_points : list Z := List.map Z.of_nat (seq 0 10).

Definition line_dist (x y : Z) : Q := Qabs (inject_Z (x - y)).

Definition round_robin_fit (k : nat) (X : list Z) : py (list nat) :=
  if Nat.ltb (length X) k then Raise ValueError
  else Ret (List.map (fun i => Nat.modulo i k) (seq 0 (length X))).

End Fixtures.

(** ** 2.2 Screening-flag summaries *)

Module Screening.
Import Pandas Cleaning.

Definition is_value (col : Row -> option Q) (v : Q) (r : Row) : bool :=
  match col r with
  | Some x => Qeq_bool x v
  | None => false
  end.

(** [df[col].value_counts()] read at one value: the number of rows whose
    cell is that value; NaN cells are not counted under any value. *)
Definition value_count (col : Row -> option Q) (v : Q) (df : DataFrame) : nat :=
  length (List.filter (is_value col v) (rows df)).

(** The number of rows that answered the question of [col]. *)
Definition n_answered (col : Row -> option Q) (df : DataFrame) : nat :=
  count_notna (List.map col (rows df)).

(** [df[col].mean()] for a mapped flag column: NaN cells are skipped, and
    the mean of a column without any answer is NaN. *)
Definition flag_mean (col : Row -> option Q) (df : DataFrame) : option Q :=
  mean_skipna (List.map col (rows df)).

(** The integer column [CSRSS_Either] as a series. *)
Definition Either_column (r : Row) : option Q :=
  Some (inject_Z (CSRSS_Either r)).

(** [df['CSRSS_Either'].mean()] *)
Definition Either_mean (df : DataFrame) : option Q :=
  flag_mean Either_column df.

End Screening.

(** ** 3.1 Recall at the two thresholds *)

Module Report.

(** The rows of the confusion matrix that [classification_report] uses
    for the recall of class [c]: the samples of true class [c], and among
    them those predicted [c].  Inputs of different lengths are a
    [ValueError]. *)
Definition support (y_true : list Z) (c : Z) : nat :=
  count_occ Z.eq_dec y_true c.

Definition true_positives (y_true y_pred : list Z) (c : Z) : nat :=
  length (List.filter (fun p => Z.eqb (fst p) c && Z.eqb (snd p) c)
                      (combine y_true y_pred)).

(** Recall of class [c], with 0 for a class without support. *)
Definition recall (y_true y_pred : list Z) (c : Z) : py Q :=
  if Nat.eqb (length y_true) (length y_pred)
  then Ret (Qn (true_positives y_true y_pred c) / Qn (support y_true c))%Q
  else Raise ValueError.

End Report.

(** ** 4. Figure 1A: the order of the diagnosis bars *)

Module Figures.
Import Cleaning.

(** Python's [list.remove(x)]: the first occurrence goes, a [ValueError]
    when there is none. *)
Fixpoint list_remove (x : string) (l : list string) : py (list string) :=
  match l with
  | [] => Raise ValueError
  | h :: t =>
      if String.eqb h x then Ret t
      else t' ← list_remove x t; Ret (h :: t')
  end.

(** [order.remove('Other'); order.append('Other')] *)
Definition other_last (order : list string) : py (list string) :=
  l ← list_remove "Other" order; Ret (l ++ ["Other"])%list.

(** The categories that [groupby('ICD_Clean')] finds: the distinct
    non-null values of the column. *)
Definition categories_present (df : DataFrame) : list string :=
  nodup String.string_dec (ChiSquare.present (List.map ICD_Clean (rows df))).

End Figures.

(** ** 2.1 The diagnosis frequency table *)

Module Frequencies.
Import Cleaning.

(** [df['ICD_Clean'].value_counts()] read at one category: the number of
    rows with that category.  The table has one entry per category of
    [Figures.categories_present]; rows with a null category are in none. *)
Definition dx_count (df : DataFrame) (c : string) : nat :=
  count_occ String.string_dec
            (ChiSquare.present (List.map ICD_Clean (rows df))) c.

(** The rows whose category is null. *)
Definition n_uncategorised (df : DataFrame) : nat :=
  length (List.filter (fun r => match ICD_Clean r with
                                | Some _ => false
                                | None => true
                                end) (rows df)).

End Frequencies.

(** ** Changes of the other columns *)

Module Columns.

(** A row-wise change of the frame that keeps the index: what a column
    assignment such as [df['AGE'] = df['age']] does to the rows. *)
Definition relabel (f : Row -> Row) (d : DataFrame) : DataFrame :=
  List.map (fun ir => (fst ir, f (snd ir))) d.

(** The row with its age removed. *)
Definition without_age (r : Row) : Row :=
  {| PAT_ID := PAT_ID r; age := None;
     D_GENDER_DESC := D_GENDER_DESC r;
     D_ICD_DESC := D_ICD_DESC r;
     IP_R_NEU_CSSRS_SUICIDAL_THOUGHTS := IP_R_NEU_CSSRS_SUICIDAL_THOUGHTS r;
     IP_R_SW_CSSRS_SUICIDAL_BEHAVIOR := IP_R_SW_CSSRS_SUICIDAL_BEHAVIOR r;
     bpi := bpi r |}.

End Columns.

(** ** The two frames behind the statistics *)

Module Frames.
Import Pandas Cleaning BPI.






End Frames.

(** * Properties *)

Module CleaningFacts.
Import Pandas Cleaning.

Lemma CSRSS_map_cases (x : option string) :
  Series_map CSRSS_map x = None
  \/ Series_map CSRSS_map x = Some 0%Q
  \/ Series_map CSRSS_map x = Some 1%Q.
Proof.
  destruct x as [s|]; [|now left]. simpl. unfold CSRSS_map. simpl.
  rewrite lookup_insert. case_decide; [right; now left|].
  rewrite lookup_insert. case_decide; [right; now right|].
  left. apply lookup_empty.
Qed.

Lemma ICD_map_closed (s c : string) :
  ICD_map !! s = Some c -> In c categories.
Proof.
  unfold ICD_map. simpl.
  repeat (rewrite lookup_insert; case_decide;
          [intros [= <-]; simpl; tauto|]).
  rewrite lookup_empty. discriminate.
Qed.

(** C1. For every derived record, [CSRSS_Either] is 1 exactly when at least
  one of [CSRSS_Thoughts] and [CSRSS_Behaviors] is 1; it is always 0 or 1,
  never null; one flag at 1 with the other null gives 1, and both null
  gives 0. *)
Theorem either_flag_iff_any_flag (r : Row) :
  (CSRSS_Either r = 1%Z <->
     CSRSS_Thoughts r = Some 1%Q \/ CSRSS_Behaviors r = Some 1%Q)
  /\ (CSRSS_Either r = 0%Z \/ CSRSS_Either r = 1%Z)
  /\ (CSRSS_Thoughts r = Some 1%Q /\ CSRSS_Behaviors r = None ->
      CSRSS_Either r = 1%Z)
  /\ (CSRSS_Thoughts r = None /\ CSRSS_Behaviors r = Some 1%Q ->
      CSRSS_Either r = 1%Z)
  /\ (CSRSS_Thoughts r = None /\ CSRSS_Behaviors r = None ->
      CSRSS_Either r = 0%Z).
Proof.
  unfold CSRSS_Either, CSRSS_sum, CSRSS_Thoughts, CSRSS_Behaviors.
  destruct (CSRSS_map_cases (IP_R_NEU_CSSRS_SUICIDAL_THOUGHTS r)) as [Ht|[Ht|Ht]];
  destruct (CSRSS_map_cases (IP_R_SW_CSSRS_SUICIDAL_BEHAVIOR r)) as [Hb|[Hb|Hb]];
  rewrite Ht, Hb; simpl sum_skipna;
  (destruct (Qlt_le_dec _ _) as [Hlt|Hle];
   [try (exfalso; vm_compute in Hlt; discriminate)
   |try (exfalso; vm_compute in Hle; apply Hle; reflexivity)]);
  repeat split; try tauto; try (intros [? ?]; congruence);
  try (intros [?|?]; congruence); try (intros; discriminate); auto.
Qed.

End CleaningFacts.

Module DiagnosisFacts.
Import Pandas Cleaning CleaningFacts Fixtures.

(** C2, as stated, fails: "MIGRAINE" is not a key of [ICD_map], and the
  derivation does not raise on it; it returns a null category. *)
Lemma unmapped_diagnosis_is_not_an_error :
  ICD_map !! "MIGRAINE" = None
  /\ derive_diagnosis (Some "MIGRAINE") = Ret None
  /\ ~ raises (derive_diagnosis (Some "MIGRAINE")).
Proof.
  split; [vm_compute; reflexivity|].
  split; [vm_compute; reflexivity|].
  intros [e He]. vm_compute in He. discriminate.
Qed.

(** C2, amended. For a row whose raw diagnosis is the string [s]: the
  derivation returns (it never raises) with [ICD_Clean] equal to the
  lookup of [s] in [ICD_map]; a string of the table gets its mapped code,
  one of the seven category codes; a string absent from the table gets a
  null category and [ICD_TN] 0. *)
Theorem diagnosis_category_lookup (r : Row) (s : string)
  (Hraw : D_ICD_DESC r = Some s) :
  derive_diagnosis (D_ICD_DESC r) = Ret (ICD_Clean r)
  /\ (forall c, ICD_map !! s = Some c ->
                ICD_Clean r = Some c /\ In c categories)
  /\ (ICD_map !! s = None -> ICD_Clean r = None /\ ICD_TN r = 0%Z).
Proof.
  unfold derive_diagnosis, ICD_TN, ICD_Clean. rewrite Hraw. simpl.
  split; [reflexivity|]. split.
  - intros c Hc. split; [exact Hc|]. eapply ICD_map_closed; eassumption.
  - intros Hn. rewrite Hn. split; reflexivity.
Qed.

Lemma diagnosis_category_lookup_witness :
  D_ICD_DESC unmapped_row = Some "MIGRAINE"
  /\ ICD_Clean unmapped_row = None.
Proof.
  split; [reflexivity|].
  apply (diagnosis_category_lookup unmapped_row "MIGRAINE"); [reflexivity|].
  vm_compute; reflexivity.
Defined.

End DiagnosisFacts.


Module CohortFacts.
Import Pandas Cleaning BPI ML Fixtures.

Lemma drop_nil (d : DataFrame) : drop [] d = d.
Proof.
  unfold drop. induction d as [|ir d IH]; simpl; [reflexivity|].
  f_equal. exact IH.
Qed.

Lemma existsb_label (z : Z) (labels : list Z) :
  existsb (Z.eqb z) labels = true <-> In z labels.
Proof.
  rewrite existsb_exists. split.
  - intros [y [Hy Heq]]. apply Z.eqb_eq in Heq. now subst.
  - intros Hin. exists z. split; [assumption|apply Z.eqb_refl].
Qed.

(** What survives the filter has no missing cell in the required columns. *)
Lemma cohort_filter_complete (cols : list string) (d : DataFrame) (ir : Z * Row) :
  In ir (cohort_filter cols d) -> any_null (select cols (snd ir)) = false.
Proof.
  unfold cohort_filter, drop. rewrite filter_In. intros [Hin Hkeep].
  destruct (any_null (select cols (snd ir))) eqn:Hnull; [|reflexivity].
  exfalso. apply negb_true_iff in Hkeep.
  assert (Hlab : In (fst ir) (missing_index cols d)).
  { unfold missing_index, index. apply in_map. apply filter_In. now split. }
  apply existsb_label in Hlab. congruence.
Qed.

Lemma cohort_filter_incl (cols : list string) (d : DataFrame) (ir : Z * Row) :
  In ir (cohort_filter cols d) -> In ir d.
Proof. unfold cohort_filter, drop. rewrite filter_In. tauto. Qed.

Lemma missing_index_nil (cols : list string) (d : DataFrame) :
  (forall ir, In ir d -> any_null (select cols (snd ir)) = false) ->
  missing_index cols d = [].
Proof.
  intros Hall. unfold missing_index, index.
  induction d as [|ir d IH]; simpl; [reflexivity|].
  rewrite (Hall ir (or_introl eq_refl)).
  apply IH. intros ir' Hin. apply Hall. now right.
Qed.

(** With distinct labels, as [read_csv] gives them, the filter is the
    plain selection of the complete rows. *)
Lemma cohort_filter_unique_index (cols : list string) (d : DataFrame) :
  List.NoDup (index d) ->
  cohort_filter cols d
  = List.filter (fun ir => negb (any_null (select cols (snd ir)))) d.
Proof.
  intros Hnd. unfold cohort_filter, drop. apply filter_ext_in.
  intros ir Hin. f_equal.
  destruct (any_null (select cols (snd ir))) eqn:Hnull.
  - apply existsb_label. unfold missing_index, index. apply in_map.
    apply filter_In. now split.
  - destruct (existsb _ _) eqn:Hex; [|reflexivity]. exfalso.
    apply existsb_label in Hex. unfold missing_index, index in Hex.
    apply in_map_iff in Hex. destruct Hex as [ir' [Hlab Hin']].
    apply filter_In in Hin'. destruct Hin' as [Hin' Hnull'].
    assert (ir' = ir); [|subst; congruence].
    clear Hnull Hnull'. unfold index in Hnd.
    induction d as [|x d IH]; [contradiction|].
    simpl in Hnd. inversion Hnd as [|? ? Hx Hd]; subst.
    destruct Hin as [->|Hin], Hin' as [->|Hin']; auto.
    + exfalso. apply Hx. rewrite <- Hlab. now apply in_map.
    + exfalso. apply Hx. rewrite Hlab. now apply in_map.
Qed.

(** C7. The cohort filter is idempotent: for every frame and every list of
  required columns, filtering the filtered frame again returns it
  unchanged, same rows in the same order. *)
Theorem cohort_filter_idempotent (cols : list string) (d : DataFrame) :
  cohort_filter cols (cohort_filter cols d) = cohort_filter cols d.
Proof.
  unfold cohort_filter at 1.
  rewrite missing_index_nil; [apply drop_nil|].
  intros ir. apply cohort_filter_complete.
Qed.

Lemma any_null_app (a b : list string) (r : Row) :
  any_null (select (a ++ b) r)
  = any_null (select a r) || any_null (select b r).
Proof. unfold any_null, select. rewrite map_app. apply existsb_app. Qed.

Lemma amb_any_complete (r : Row) :
  any_null (select amb_any r) = false ->
  any_null (select amb_painintensity r) = false
  /\ any_null (select amb_interference r) = false
  /\ any_null (select amb_specific r) = false
  /\ bpi r total_score <> None.
Proof.
  unfold amb_any. rewrite !any_null_app. intros H.
  apply orb_false_elim in H as [H1 H].
  apply orb_false_elim in H as [H2 H].
  apply orb_false_elim in H as [H3 H4].
  repeat split; try assumption.
  intros Hn. cbn in H4. rewrite Hn in H4. discriminate.
Qed.

(** A row of cells without NaN is a plain list of numbers; the
    NaN-skipping sum and count are the plain sum and length. *)
Lemma complete_cells (cells : list (option Q)) :
  any_null cells = false ->
  exists items,
    cells = List.map Some items
    /\ sum_skipna cells = Qsum items
    /\ count_notna cells = length items.
Proof.
  induction cells as [|c cells IH]; intros Hn.
  - exists []. repeat split.
  - destruct c as [x|]; [|discriminate]. simpl in Hn.
    destruct (IH Hn) as [items [-> [Hs Hc]]].
    exists (x :: items). simpl. rewrite Hs, Hc. repeat split.
Qed.

Lemma cohort_row_complete (df : DataFrame) (r : Row) :
  In r (rows (amb_df df)) -> any_null (select amb_any r) = false.
Proof.
  unfold rows. rewrite in_map_iff. intros [ir [<- Hin]].
  eapply cohort_filter_complete. exact Hin.
Qed.

Lemma scored_of_complete (cols : list string) (r : Row) :
  cols <> [] ->
  any_null (select cols r) = false ->
  scored cols (fun r => sum_skipna (select cols r)) r.
Proof.
  intros Hne Hn. destruct (complete_cells _ Hn) as [items [Hsel [Hs Hc]]].
  assert (Hlen : length items = length cols).
  { apply (f_equal (@length _)) in Hsel.
    unfold select in Hsel. now rewrite !length_map in Hsel. }
  exists items, (sum_skipna (select cols r) / Qn (count_notna (select cols r)))%Q.
  split; [exact Hsel|]. split.
  - unfold domain_mean, mean_skipna. rewrite Hc.
    destruct items; [destruct cols; simpl in Hlen; congruence|].
    reflexivity.
  - rewrite Hs, Hc. unfold arithmetic_mean. split; reflexivity.
Qed.

Lemma cohort_row_scored (df : DataFrame) (r : Row) :
  In r (rows (amb_df df)) ->
  scored amb_painintensity Pain_Intensity r
  /\ scored amb_interference Interference_General r
  /\ scored amb_specific Interference_Face r.
Proof.
  intros Hr. apply cohort_row_complete in Hr. apply amb_any_complete in Hr.
  destruct Hr as [Hp [Hg [Hf _]]].
  split; [|split]; apply scored_of_complete; (discriminate || assumption).
Qed.

(** C5, amended. For every cohort row and each of the three domains, no
  constituent item is null, the domain score is not null and equals the
  arithmetic mean of the items; the continuous covariates of the
  classification and clustering cells are the sums of the items, not
  the mean-valued scores. *)
Theorem domain_scores_of_cohort_rows (df : DataFrame) (r : Row)
  (Hr : In r (rows (amb_df df))) :
  scored amb_painintensity Pain_Intensity r
  /\ scored amb_interference Interference_General r
  /\ scored amb_specific Interference_Face r
  /\ (forall cols, In cols [amb_painintensity; amb_interference; amb_specific] ->
        (domain_mean cols r = None <-> any_null (select cols r) = true)).
Proof.
  destruct (cohort_row_scored df r Hr) as [Sp [Sg Sf]].
  apply cohort_row_complete in Hr. apply amb_any_complete in Hr.
  destruct Hr as [Hp [Hg [Hf _]]].
  do 3 (split; [assumption|]).
  intros cols [<-|[<-|[<-|[]]]];
    [destruct Sp as [? [? [_ [Hm _]]]]
    |destruct Sg as [? [? [_ [Hm _]]]]
    |destruct Sf as [? [? [_ [Hm _]]]]];
    rewrite Hm; split; intros; congruence.
Qed.

Lemma domain_scores_of_cohort_rows_witness :
  In row_of_ones (rows (amb_df [(0%Z, row_of_ones)]))
  /\ scored amb_painintensity Pain_Intensity row_of_ones.
Proof.
  assert (H : In row_of_ones (rows (amb_df [(0%Z, row_of_ones)]))).
  { vm_compute. left. reflexivity. }
  split; [exact H|].
  apply (domain_scores_of_cohort_rows [(0%Z, row_of_ones)] row_of_ones H).
Defined.

(** C5, as stated, fails in its last part: on a cohort row whose four
  pain-intensity items are all 1 the domain score is 1, while the
  covariate [Pain_Intensity] of the pipelines is 4. *)
Lemma covariate_is_not_the_mean :
  In row_of_ones (rows (amb_df [(0%Z, row_of_ones)]))
  /\ (exists m, domain_mean amb_painintensity row_of_ones = Some m
                /\ (m == 1)%Q
                /\ (Pain_Intensity row_of_ones == 4)%Q
                /\ ~ (Pain_Intensity row_of_ones == m)%Q).
Proof.
  split; [vm_compute; left; reflexivity|].
  eexists. split; [vm_compute; reflexivity|].
  repeat split; try (vm_compute; reflexivity).
  vm_compute. discriminate.
Qed.

End CohortFacts.

Module ConsistencyFacts.
Import Pandas Cleaning BPI ML Demographics Fixtures CohortFacts.








End ConsistencyFacts.

Module ChiSquareFacts.
Import Pandas Cleaning ChiSquare Fixtures.

Section Groups.
Context {K : Type}.
Variable Keq_dec : forall x y : K, {x = y} + {x <> y}.

Lemma present_In (col : list (option K)) (k : K) :
  In k (present col) <-> In (Some k) col.
Proof.
  induction col as [|[k'|] col IH]; simpl; [tauto| |].
  - rewrite IH. split; intros [H|H]; auto; left; congruence.
  - rewrite IH. split; [auto|intros [H|H]; [discriminate|assumption]].
Qed.

Lemma group_values_length {A : Type} (key : A -> option K) (val : A -> Z)
  (l : list A) (k : K) :
  length (group_values Keq_dec (List.map (fun a => (key a, val a)) l) k)
  = length (List.filter (fun a => key_is Keq_dec k (key a)) l).
Proof.
  unfold group_values. rewrite length_map.
  induction l as [|a l IH]; simpl; [reflexivity|].
  destruct (key_is Keq_dec k (key a)); simpl; now rewrite IH.
Qed.

Lemma group_values_In (kv : list (option K * Z)) (k : K) (v : Z) :
  In v (group_values Keq_dec kv k) -> exists p, In p kv /\ snd p = v.
Proof.
  unfold group_values. rewrite in_map_iff.
  intros [p [Hv Hp]]. apply filter_In in Hp. exists p. tauto.
Qed.

End Groups.

Section Keys.
Context {K : Type}.
Variable Keq_dec : forall x y : K, {x = y} + {x <> y}.
Variable Kleb : K -> K -> bool.

Lemma insert_key_perm (x : K) (l : list K) :
  Permutation (insert_key Kleb x l) (x :: l).
Proof.
  induction l as [|h t IH]; simpl; [reflexivity|].
  destruct (Kleb x h); [reflexivity|].
  rewrite IH. apply perm_swap.
Qed.

Lemma sort_keys_perm (l : list K) : Permutation (sort_keys Kleb l) l.
Proof.
  induction l as [|x l IH]; simpl; [reflexivity|].
  rewrite insert_key_perm. now constructor.
Qed.

Lemma group_keys_NoDup (col : list (option K)) :
  List.NoDup (group_keys Keq_dec Kleb col).
Proof.
  unfold group_keys.
  eapply Permutation_NoDup; [symmetry; apply sort_keys_perm|].
  apply NoDup_nodup.
Qed.

Lemma group_keys_In (col : list (option K)) (k : K) :
  In k (group_keys Keq_dec Kleb col) <-> In (Some k) col.
Proof.
  unfold group_keys. split; intros H.
  - apply present_In. apply (nodup_In Keq_dec).
    eapply Permutation_in; [apply sort_keys_perm|exact H].
  - eapply Permutation_in; [symmetry; apply sort_keys_perm|].
    apply nodup_In. now apply present_In.
Qed.

End Keys.

Lemma insert_by_count_length (x : Z * nat) (l : list (Z * nat)) :
  length (insert_by_count x l) = S (length l).
Proof.
  induction l as [|h t IH]; simpl; [reflexivity|].
  destruct (Nat.ltb _ _); simpl; [now rewrite IH|reflexivity].
Qed.

(** [value_counts] has one entry per distinct value. *)
Lemma value_counts_length (vals : list Z) :
  length (value_counts vals) = length (nodup Z.eq_dec vals).
Proof.
  unfold value_counts.
  rewrite <- (Permutation_length (sort_keys_perm Z.leb (nodup Z.eq_dec vals))).
  induction (sort_keys Z.leb (nodup Z.eq_dec vals)) as [|v l IH]; simpl;
    [reflexivity|].
  now rewrite insert_by_count_length, IH.
Qed.

Lemma nodup_length_le (vals : list Z) :
  (length (nodup Z.eq_dec vals) <= length vals)%nat.
Proof.
  induction vals as [|v vals IH]; simpl; [lia|].
  destruct (in_dec _ _ _); simpl; lia.
Qed.

Lemma binary_values_distinct (vals : list Z) :
  (forall v, In v vals -> v = 0%Z \/ v = 1%Z) ->
  (length (nodup Z.eq_dec vals) <= 2)%nat.
Proof.
  intros Hbin.
  change 2%nat with (length [0%Z; 1%Z]).
  apply NoDup_incl_length; [apply NoDup_nodup|].
  intros v Hv. apply nodup_In in Hv.
  destruct (Hbin v Hv) as [-> | ->]; simpl; tauto.
Qed.

(** With at most two group keys and a group of fewer than two rows,
    [groupby(...).value_counts()] has at most three entries. *)
Lemma small_group_counts {K : Type}
  (Keq_dec : forall x y : K, {x = y} + {x <> y}) (Kleb : K -> K -> bool)
  (kv : list (option K * Z)) (g1 g2 g : K) :
  (forall p, In p kv -> fst p = None \/ fst p = Some g1 \/ fst p = Some g2) ->
  (forall p, In p kv -> snd p = 0%Z \/ snd p = 1%Z) ->
  g = g1 \/ g = g2 ->
  (length (group_values Keq_dec kv g) < 2)%nat ->
  (length (groupby_value_counts Keq_dec Kleb kv) <= 3)%nat.
Proof.
  intros Hkeys Hbin Hg Hsmall. unfold groupby_value_counts.
  set (f := fun k => List.map snd (value_counts (group_values Keq_dec kv k))).
  assert (Hf2 : forall k, (length (f k) <= 2)%nat).
  { intros k. unfold f. rewrite length_map, value_counts_length.
    apply binary_values_distinct. intros v Hv.
    apply group_values_In in Hv. destruct Hv as [p [Hp <-]]. now apply Hbin. }
  assert (Hf1 : (length (f g) <= 1)%nat).
  { unfold f. rewrite length_map, value_counts_length.
    pose proof (nodup_length_le (group_values Keq_dec kv g)). lia. }
  assert (Hin : forall k, In k (group_keys Keq_dec Kleb (List.map fst kv)) ->
                          k = g1 \/ k = g2).
  { intros k Hk. apply group_keys_In in Hk. apply in_map_iff in Hk.
    destruct Hk as [p [Hfst Hp]].
    destruct (Hkeys p Hp) as [H|[H|H]]; rewrite H in Hfst;
      [discriminate|left|right]; congruence. }
  pose proof (group_keys_NoDup Keq_dec Kleb (List.map fst kv)) as Hnd.
  destruct (group_keys Keq_dec Kleb (List.map fst kv)) as [|a [|b [|c l]]];
    simpl; rewrite ?length_app; simpl.
  - lia.
  - pose proof (Hf2 a). lia.
  - assert (Hab : a <> b).
    { inversion Hnd as [|? ? Ha _]; subst. intros ->. apply Ha. now left. }
    assert (Hcase : g = a \/ g = b).
    { destruct (Hin a (or_introl eq_refl)) as [Ha|Ha],
               (Hin b (or_intror (or_introl eq_refl))) as [Hb|Hb],
               Hg as [Hg|Hg]; subst; auto; congruence. }
    pose proof (Hf2 a). pose proof (Hf2 b).
    destruct Hcase as [-> | ->]; lia.
  - exfalso.
    inversion Hnd as [|? ? Ha Hnd']; subst.
    inversion Hnd' as [|? ? Hb Hnd'']; subst.
    inversion Hnd'' as [|? ? Hc _]; subst.
    destruct (Hin a (or_introl eq_refl)) as [Ha'|Ha'],
             (Hin b (or_intror (or_introl eq_refl))) as [Hb'|Hb'],
             (Hin c (or_intror (or_intror (or_introl eq_refl)))) as [Hc'|Hc'];
      subst; simpl in *; tauto.
Qed.

Lemma reshape_short (v : list nat) :
  (length v <= 3)%nat -> reshape_2_2 v = Raise ValueError.
Proof.
  destruct v as [|a [|b [|c [|d [|e v]]]]]; simpl; intros; try reflexivity; lia.
Qed.

Lemma gender_pairs_binary (df : DataFrame) (p : option string * Z) :
  In p (List.map (fun r => (D_GENDER_DESC r, CSRSS_Either r)) (rows df)) ->
  snd p = 0%Z \/ snd p = 1%Z.
Proof.
  rewrite in_map_iff. intros [r [<- _]]. simpl.
  unfold CSRSS_Either. destruct (Qlt_le_dec _ _); auto.
Qed.

Lemma ICD_TN_binary (r : Row) : ICD_TN r = 0%Z \/ ICD_TN r = 1%Z.
Proof.
  unfold ICD_TN. destruct (ICD_Clean r) as [c|]; [|now left].
  destruct (String.eqb c "TN"); auto.
Qed.

Lemma two_element_list {A : Type} (l : list A) (a b : A) :
  List.NoDup l ->
  (forall x, In x l -> x = a \/ x = b) ->
  In a l -> In b l -> a <> b ->
  l = [a; b] \/ l = [b; a].
Proof.
  intros Hnd Hin Ha Hb Hab.
  destruct l as [|x [|y [|z l]]].
  - contradiction.
  - simpl in Ha, Hb. destruct Ha as [Ha|[]], Hb as [Hb|[]]. congruence.
  - inversion Hnd as [|? ? Hx _]; subst.
    assert (Hxy : x <> y) by (intros ->; apply Hx; now left).
    destruct (Hin x (or_introl eq_refl)) as [-> | ->],
             (Hin y (or_intror (or_introl eq_refl))) as [-> | ->];
      auto; congruence.
  - exfalso.
    inversion Hnd as [|? ? Hx Hnd']; subst.
    inversion Hnd' as [|? ? Hy _]; subst.
    destruct (Hin x (or_introl eq_refl)) as [Hx'|Hx'],
             (Hin y (or_intror (or_introl eq_refl))) as [Hy'|Hy'],
             (Hin z (or_intror (or_intror (or_introl eq_refl)))) as [Hz'|Hz'];
      subst; simpl in *; tauto.
Qed.

Lemma count_occ_group_values {K : Type}
  (Keq_dec : forall x y : K, {x = y} + {x <> y})
  (kv : list (option K * Z)) (g : K) (e : Z) :
  count_occ Z.eq_dec (group_values Keq_dec kv g) e = cell Keq_dec kv g e.
Proof.
  unfold group_values, cell.
  induction kv as [|p kv IH]; simpl; [reflexivity|].
  destruct (key_is Keq_dec g (fst p)); simpl; [|exact IH].
  destruct (Z.eq_dec (snd p) e) as [Heq|Hne].
  - apply Z.eqb_eq in Heq. rewrite Heq. simpl. now rewrite IH.
  - apply Z.eqb_neq in Hne. rewrite Hne. exact IH.
Qed.

(** Inside a group where both flag values occur and the unflagged rows
    are at least as many as the flagged ones, [value_counts] lists the
    unflagged count first. *)
Lemma value_counts_unflagged_first (vals : list Z) :
  (forall v, In v vals -> v = 0%Z \/ v = 1%Z) ->
  (0 < count_occ Z.eq_dec vals 1%Z <= count_occ Z.eq_dec vals 0%Z)%nat ->
  List.map snd (value_counts vals)
  = [count_occ Z.eq_dec vals 0%Z; count_occ Z.eq_dec vals 1%Z].
Proof.
  intros Hbin [Hpos Hle]. unfold value_counts.
  assert (Hsorted : sort_keys Z.leb (nodup Z.eq_dec vals) = [0%Z; 1%Z]).
  { destruct (two_element_list (nodup Z.eq_dec vals) 0%Z 1%Z) as [-> | ->];
      try reflexivity.
    - apply NoDup_nodup.
    - intros v Hv. apply nodup_In in Hv. now apply Hbin.
    - apply nodup_In. apply (count_occ_In Z.eq_dec). lia.
    - apply nodup_In. apply (count_occ_In Z.eq_dec). lia.
    - discriminate. }
  rewrite Hsorted. simpl.
  destruct (Nat.ltb_spec (count_occ Z.eq_dec vals 0%Z)
                         (count_occ Z.eq_dec vals 1%Z)); [lia|reflexivity].
Qed.

(** When the notebook's table is right: two groups, both flag values in
    each, and in each group at least as many unflagged as flagged rows.
    Then the reshaped value counts are the contingency table. *)
Lemma counts_are_contingency_table {K : Type}
  (Keq_dec : forall x y : K, {x = y} + {x <> y}) (Kleb : K -> K -> bool)
  (kv : list (option K * Z)) (g1 g2 : K) :
  Kleb g1 g2 = true -> Kleb g2 g1 = false ->
  (forall p, In p kv -> fst p = None \/ fst p = Some g1 \/ fst p = Some g2) ->
  (forall p, In p kv -> snd p = 0%Z \/ snd p = 1%Z) ->
  (forall g, g = g1 \/ g = g2 ->
             (0 < cell Keq_dec kv g 1 <= cell Keq_dec kv g 0)%nat) ->
  reshape_2_2 (groupby_value_counts Keq_dec Kleb kv)
  = Ret (contingency_table Keq_dec kv g1 g2).
Proof.
  intros H12 H21 Hkeys Hbin Hcells.
  assert (Hne : g1 <> g2) by (intros ->; congruence).
  assert (Hgroup : forall g, g = g1 \/ g = g2 ->
            List.map snd (value_counts (group_values Keq_dec kv g))
            = [cell Keq_dec kv g 0; cell Keq_dec kv g 1]).
  { intros g Hg. rewrite <- !count_occ_group_values.
    apply value_counts_unflagged_first.
    - intros v Hv. apply group_values_In in Hv.
      destruct Hv as [p [Hp <-]]. now apply Hbin.
    - rewrite !count_occ_group_values. now apply Hcells. }
  assert (Hin : forall g, g = g1 \/ g = g2 -> In (Some g) (List.map fst kv)).
  { intros g Hg. destruct (Hcells g Hg) as [Hpos _]. unfold cell in Hpos.
    destruct (List.filter _ kv) as [|p l] eqn:Hf; [simpl in Hpos; lia|].
    assert (Hp : In p (List.filter
                         (fun p => key_is Keq_dec g (fst p) && Z.eqb (snd p) 1) kv))
      by (rewrite Hf; now left).
    apply filter_In in Hp. destruct Hp as [Hp Hk].
    apply andb_true_iff in Hk. destruct Hk as [Hk _].
    apply in_map_iff. exists p. split; [|exact Hp].
    unfold key_is in Hk. destruct (fst p) as [k|]; [|discriminate].
    destruct (Keq_dec g k); [congruence|discriminate]. }
  assert (Hkeys' : group_keys Keq_dec Kleb (List.map fst kv) = [g1; g2]).
  { unfold group_keys.
    destruct (two_element_list
                (nodup Keq_dec (present (List.map fst kv))) g1 g2) as [-> | ->].
    - apply NoDup_nodup.
    - intros k Hk. apply nodup_In, present_In, in_map_iff in Hk.
      destruct Hk as [p [Hfst Hp]].
      destruct (Hkeys p Hp) as [H|[H|H]]; rewrite H in Hfst;
        [discriminate|left|right]; congruence.
    - apply nodup_In, present_In, Hin. now left.
    - apply nodup_In, present_In, Hin. now right.
    - exact Hne.
    - simpl. now rewrite H12.
    - simpl. now rewrite H21. }
  unfold groupby_value_counts. rewrite Hkeys'. simpl.
  rewrite (Hgroup g1), (Hgroup g2) by auto. reflexivity.
Qed.

(** C8. The chi-square operations raise where a compared group is too
  small.  With a single man among four patients the grouped value counts
  have three entries, and both the table construction and the test raise
  [ValueError] instead of giving a not-computable result; the same
  happens for the diagnosis test, whose group without trigeminal
  neuralgia is that one patient. *)
Lemma chi_square_raises_on_single_member_group :
  gender_group_size df_single_man "Male" = 1%nat
  /\ csrss_counts_gender df_single_man = Raise ValueError
  /\ raises (chi2_gender df_single_man)
  /\ tn_group_size df_single_man 0 = 1%nat
  /\ raises (chi2_tn df_single_man).
Proof.
  repeat split; try (vm_compute; reflexivity);
    exists ValueError; vm_compute; reflexivity.
Qed.

(** The same in general.  If the sex column has at most two values and
  one of the two groups has fewer than 2 rows, the sex-by-flag test
  raises [ValueError] at the 2x2 reshape; likewise the diagnosis-by-flag
  test when the group with or the group without trigeminal neuralgia has
  fewer than 2 rows. *)
Theorem chi_square_raises_on_small_group (df : DataFrame) :
  (forall g1 g2 g : string,
      (forall r, In r (rows df) ->
                 D_GENDER_DESC r = None \/ D_GENDER_DESC r = Some g1
                 \/ D_GENDER_DESC r = Some g2) ->
      g = g1 \/ g = g2 ->
      (gender_group_size df g < 2)%nat ->
      csrss_counts_gender df = Raise ValueError
      /\ chi2_gender df = Raise ValueError)
  /\ (forall g : Z,
      g = 0%Z \/ g = 1%Z ->
      (tn_group_size df g < 2)%nat ->
      csrss_counts_tn df = Raise ValueError
      /\ chi2_tn df = Raise ValueError).
Proof.
  split.
  - intros g1 g2 g Hsex Hg Hsmall.
    assert (Ht : csrss_counts_gender df = Raise ValueError).
    { unfold csrss_counts_gender. apply reshape_short.
      apply (small_group_counts _ _ _ g1 g2 g).
      - intros p Hp. apply in_map_iff in Hp. destruct Hp as [r [<- Hr]].
        simpl. now apply Hsex.
      - apply gender_pairs_binary.
      - exact Hg.
      - rewrite group_values_length. exact Hsmall. }
    split; [exact Ht|]. unfold chi2_gender. now rewrite Ht.
  - intros g Hg Hsmall.
    assert (Ht : csrss_counts_tn df = Raise ValueError).
    { unfold csrss_counts_tn. apply reshape_short.
      apply (small_group_counts _ _ _ 0%Z 1%Z g).
      - intros p Hp. apply in_map_iff in Hp. destruct Hp as [r [<- Hr]].
        simpl. right. destruct (ICD_TN_binary r) as [-> | ->]; auto.
      - intros p Hp. apply in_map_iff in Hp. destruct Hp as [r [<- Hr]].
        simpl. unfold CSRSS_Either. destruct (Qlt_le_dec _ _); auto.
      - exact Hg.
      - rewrite (group_values_length Z.eq_dec (fun r => Some (ICD_TN r))).
        exact Hsmall. }
    split; [exact Ht|]. unfold chi2_tn. now rewrite Ht.
Qed.

Lemma chi_square_raises_on_small_group_witness :
  (gender_group_size df_single_man "Male" < 2)%nat
  /\ chi2_gender df_single_man = Raise ValueError
  /\ (tn_group_size df_single_man 0 < 2)%nat
  /\ chi2_tn df_single_man = Raise ValueError.
Proof.
  pose proof (chi_square_raises_on_small_group df_single_man) as [Hsex Htn].
  assert (Hs : (gender_group_size df_single_man "Male" < 2)%nat)
    by (vm_compute; lia).
  assert (Ht : (tn_group_size df_single_man 0 < 2)%nat)
    by (vm_compute; lia).
  split; [exact Hs|]. split.
  - apply (Hsex "Female" "Male" "Male"); [|now right|exact Hs].
    intros r Hr. right. unfold df_single_man in Hr. simpl in Hr.
    destruct Hr as [<-|[<-|[<-|[<-|[]]]]]; simpl; auto.
  - split; [exact Ht|]. apply (Htn 0%Z); [now left|exact Ht].
Defined.

(** C4. The table handed to the chi-square test is not the contingency
  table when a group has more flagged than unflagged rows.  On eight
  patients, women 3 unflagged and 1 flagged, men 1 unflagged and 3
  flagged, the notebook tests the table ((3,1),(3,1)) and reports the
  statistic 0, whereas the contingency table is ((3,1),(1,3)) with
  statistic 1/2; the diagnosis test on the same patients likewise uses
  ((3,1),(3,1)) in place of ((1,3),(3,1)). *)
Theorem chi_square_table_is_sorted_by_frequency :
  let sex := List.map (fun r => (D_GENDER_DESC r, CSRSS_Either r))
                      (rows df_men_mostly_positive) in
  let tn := List.map (fun r => (Some (ICD_TN r), CSRSS_Either r))
                     (rows df_men_mostly_positive) in
  csrss_counts_gender df_men_mostly_positive = Ret ((3, 1), (3, 1))%nat
  /\ contingency_table String.string_dec sex "Female" "Male"
     = ((3, 1), (1, 3))%nat
  /\ (exists s, chi2_gender df_men_mostly_positive = Ret (s, 1%Z)
                /\ (s == 0)%Q)
  /\ (exists s, chi2_contingency
                  (contingency_table String.string_dec sex "Female" "Male")
                = Ret (s, 1%Z)
                /\ (s == 1 # 2)%Q)
  /\ csrss_counts_tn df_men_mostly_positive = Ret ((3, 1), (3, 1))%nat
  /\ contingency_table Z.eq_dec tn 0%Z 1%Z = ((1, 3), (3, 1))%nat.
Proof.
  cbv zeta. split; [vm_compute; reflexivity|].
  split; [vm_compute; reflexivity|].
  split; [eexists; split; [vm_compute; reflexivity|reflexivity]|].
  split; [eexists; split; [vm_compute; reflexivity|reflexivity]|].
  split; vm_compute; reflexivity.
Qed.

End ChiSquareFacts.

Module WelchFacts.
Import BPI Welch Fixtures.

(** C6. The degrees of freedom printed next to Welch's statistic are the
  pooled ones, not Welch's.  On seven patients, two flagged with pain
  scores 0 and 10 and five unflagged with pain scores 5, 5, 5, 5 and 6,
  the notebook prints t(5), that is 2 + 5 - 2, while the
  Welch-Satterthwaite degrees of freedom of these two subgroups lie
  between 1 and 3/2 and print as 1. *)
Theorem printed_dof_is_not_welch :
  exists sui notsui,
    painintensity_sui df_unequal_variances = Ret sui
    /\ painintensity_notsui df_unequal_variances = Ret notsui
    /\ Forall2 Qeq sui [0; 10]%Q
    /\ Forall2 Qeq notsui [5; 5; 5; 5; 6]%Q
    /\ printed_dof sui notsui = 5%Z
    /\ (1 <= welch_dof sui notsui)%Q
    /\ (welch_dof sui notsui < 3 # 2)%Q.
Proof.
  do 2 eexists.
  split; [vm_compute; reflexivity|].
  split; [vm_compute; reflexivity|].
  split; [repeat constructor|].
  split; [repeat constructor|].
  split; [reflexivity|].
  split; vm_compute; [discriminate|reflexivity].
Qed.

End WelchFacts.

Module ClassifierFacts.
Import Classifier.
Local Open Scope Q_scope.

(** C9. For the fitted pipeline and any evaluation set, every example
  predicted positive by [predict] (the default 0.5 threshold) is also
  predicted positive at the threshold 0.3, so the lower threshold gives
  at least as many positive predictions.  The link is only required to
  send a positive decision value to a probability of at least one half. *)
Theorem lower_threshold_keeps_positives
  (Sample : Type) (decision_function : Sample -> Q) (expit : Q -> Q)
  (Hexpit : forall z, 0 < z -> 1 # 2 <= expit z)
  (X_test : list Sample) :
  Forall2 (fun d a => d = 1%Z -> a = 1%Z)
          (y_pred_default decision_function X_test)
          (y_pred_alt decision_function expit X_test)
  /\ (n_positive (y_pred_default decision_function X_test)
      <= n_positive (y_pred_alt decision_function expit X_test))%nat.
Proof.
  unfold y_pred_default, y_pred_alt, y_proba, n_positive.
  induction X_test as [|x X_test [IHall IHcount]]; simpl.
  - split; [constructor|lia].
  - destruct (Qlt_le_dec 0 (decision_function x)) as [Hpos|Hneg].
    + assert (Hthr : Qle_bool threshold (expit (decision_function x)) = true).
      { apply Qle_bool_iff. apply Qle_trans with (1 # 2); [|now apply Hexpit].
        unfold threshold. apply Qlt_le_weak. reflexivity. }
      rewrite Hthr. simpl. split; [constructor; auto|lia].
    + split; [constructor; [discriminate|assumption]|].
      destruct (Qle_bool _ _); simpl; lia.
Qed.

Lemma hard_sigmoid_half (z : Q) : 0 < z -> 1 # 2 <= Fixtures.hard_sigmoid z.
Proof.
  intros Hz. unfold Fixtures.hard_sigmoid.
  apply Qle_trans with (Qmin 1 ((1 # 2) + z / 4)); [|apply Q.le_max_r].
  apply Q.min_glb; [discriminate|].
  assert (0 <= z / 4) by (apply Qle_shift_div_l; [reflexivity|lra]).
  lra.
Qed.

Lemma lower_threshold_keeps_positives_witness :
  y_pred_default (fun z : Q => z) Fixtures.decisions = [0; 0; 1]%Z
  /\ y_pred_alt (fun z : Q => z) Fixtures.hard_sigmoid Fixtures.decisions
     = [0; 1; 1]%Z
  /\ (n_positive (y_pred_default (fun z : Q => z) Fixtures.decisions)
      <= n_positive (y_pred_alt (fun z : Q => z) Fixtures.hard_sigmoid
                                Fixtures.decisions))%nat.
Proof.
  split; [reflexivity|]. split; [reflexivity|].
  apply (lower_threshold_keeps_positives Q (fun z : Q => z) Fixtures.hard_sigmoid
           hard_sigmoid_half Fixtures.decisions).
Defined.

End ClassifierFacts.

Module ClusteringFacts.
Import Clustering.
Local Open Scope Q_scope.

Lemma Qn_nonneg (n : nat) : 0 <= Qn n.
Proof. unfold Qn, Qle. simpl. lia. Qed.

Lemma Qn_pos (n : nat) : (0 < n)%nat -> 0 < Qn n.
Proof. unfold Qn, Qlt. simpl. lia. Qed.

Lemma Qn_S (n : nat) : Qn (S n) == Qn n + 1.
Proof. unfold Qn. rewrite Nat2Z.inj_succ, <- Z.add_1_r, inject_Z_plus. reflexivity. Qed.

Lemma Qpos_of_nonzero (y : Q) : 0 <= y -> ~ y == 0 -> 0 < y.
Proof.
  intros Hy Hnz. destruct (Qle_lt_or_eq _ _ Hy) as [Hlt|Heq];
    [assumption|]. exfalso. apply Hnz. now symmetry.
Qed.

(** Division by zero gives 0, which is also what [nan_to_num] makes of
    the quotient 0/0 of a silhouette sample. *)
Lemma Qdiv_by_zero (x y : Q) : y == 0 -> x / y == 0.
Proof.
  intros Hz. unfold Qdiv. rewrite Hz. change (/ 0) with 0. ring.
Qed.

Lemma Qdiv_nonneg (x y : Q) : 0 <= x -> 0 <= y -> 0 <= x / y.
Proof.
  intros Hx Hy. destruct (Qeq_dec y 0) as [Hz|Hnz].
  - rewrite (Qdiv_by_zero x y Hz). discriminate.
  - apply Qle_shift_div_l; [now apply Qpos_of_nonzero|lra].
Qed.

(** A quotient whose numerator is bounded by its positive denominator on
    both sides lies in [-1, 1]; so does a quotient by zero, which is 0. *)
Lemma ratio_bounded (x m : Q) :
  0 <= m -> - m <= x -> x <= m -> unit_interval (x / m).
Proof.
  intros Hm Hlo Hhi. unfold unit_interval.
  destruct (Qeq_dec m 0) as [Hz|Hnz].
  - rewrite (Qdiv_by_zero x m Hz). split; discriminate.
  - pose proof (Qpos_of_nonzero m Hm Hnz).
    split; [apply Qle_shift_div_l|apply Qle_shift_div_r]; lra.
Qed.

Lemma silhouette_ratio (a b : Q) :
  0 <= a -> 0 <= b -> unit_interval ((b - a) / Qmax a b).
Proof.
  intros Ha Hb.
  pose proof (Q.le_max_l a b). pose proof (Q.le_max_r a b).
  apply ratio_bounded; lra.
Qed.

Lemma Qsum_bounded (xs : list Q) :
  Forall unit_interval xs ->
  - Qn (length xs) <= Qsum xs /\ Qsum xs <= Qn (length xs).
Proof.
  induction 1 as [|x xs [Hlo Hhi] _ [IHlo IHhi]].
  - split; discriminate.
  - change (Qsum (x :: xs)) with (x + Qsum xs).
    simpl length. rewrite Qn_S. lra.
Qed.

Lemma mean_bounded (xs : list Q) :
  Forall unit_interval xs -> unit_interval (arithmetic_mean xs).
Proof.
  intros Hxs. destruct (Qsum_bounded xs Hxs).
  unfold arithmetic_mean. apply ratio_bounded; [apply Qn_nonneg| |]; assumption.
Qed.

Lemma Qmin_list_nonneg (xs : list Q) :
  Forall (Qle 0) xs -> 0 <= Qmin_list xs.
Proof.
  destruct xs as [|x xs]; simpl; [discriminate|].
  intros Hall. inversion Hall as [|? ? Hx Hxs]; subst. clear Hall.
  revert x Hx. induction Hxs as [|y ys Hy _ IH]; intros x Hx; simpl.
  - exact Hx.
  - apply IH. apply Q.min_glb; assumption.
Qed.

Section Scores.
Context {Point : Type}.
Variable dist : Point -> Point -> Q.
Hypothesis dist_nonneg : forall x y, 0 <= dist x y.

Lemma dist_sum_nonneg (x : Point) (ys : list Point) : 0 <= dist_sum dist x ys.
Proof.
  unfold dist_sum. induction ys as [|y ys IH]; [discriminate|].
  change (0 <= dist x y + Qsum (List.map (dist x) ys)).
  pose proof (dist_nonneg x y). lra.
Qed.

Lemma intra_nonneg (X : list Point) (labels : list nat) (x : Point) (l : nat) :
  length (members X labels l) <> 1%nat -> 0 <= intra dist X labels x l.
Proof.
  intros Hn. unfold intra.
  destruct (members X labels l) as [|y [|y' ys]] eqn:Hm.
  - unfold dist_sum. simpl. discriminate.
  - simpl in Hn. congruence.
  - apply Qdiv_nonneg; [apply dist_sum_nonneg|].
    simpl length. rewrite !Qn_S. pose proof (Qn_nonneg (length ys)). lra.
Qed.

Lemma inter_nonneg (X : list Point) (labels : list nat) (x : Point) (l : nat) :
  0 <= inter dist X labels x l.
Proof.
  unfold inter. apply Qmin_list_nonneg. apply List.Forall_forall.
  intros q Hq. apply in_map_iff in Hq. destruct Hq as [l' [<- _]].
  apply Qdiv_nonneg; [apply dist_sum_nonneg|apply Qn_nonneg].
Qed.

Lemma silhouette_sample_bounded (X : list Point) (labels : list nat)
  (xl : Point * nat) :
  unit_interval (silhouette_sample dist X labels xl).
Proof.
  destruct xl as [x l]. unfold silhouette_sample.
  destruct (Nat.eqb (length (members X labels l)) 1) eqn:Hone.
  - split; discriminate.
  - apply Nat.eqb_neq in Hone.
    apply silhouette_ratio; [now apply intra_nonneg|apply inter_nonneg].
Qed.

(** Whenever [silhouette_score] returns, its value lies in [-1, 1]. *)
Lemma silhouette_score_bounded (X : list Point) (labels : list nat) (s : Q) :
  silhouette_score dist X labels = Ret s -> unit_interval s.
Proof.
  unfold silhouette_score. destruct (_ && _); [|discriminate].
  intros [= <-]. apply mean_bounded. apply List.Forall_forall.
  intros q Hq. apply in_map_iff in Hq. destruct Hq as [xl [<- _]].
  apply silhouette_sample_bounded.
Qed.

(** [silhouette_score] returns on a labelling that has one label per
    sample and between 2 and [n_samples - 1] distinct labels. *)
Lemma silhouette_score_returns (X : list Point) (labels : list nat) :
  length labels = length X ->
  (2 <= length (nodup Nat.eq_dec labels) < length X)%nat ->
  exists s, silhouette_score dist X labels = Ret s.
Proof.
  intros Hlen [Hlo Hhi]. unfold silhouette_score.
  rewrite Hlen, Nat.eqb_refl.
  apply Nat.leb_le in Hlo. apply Nat.ltb_lt in Hhi. rewrite Hlo, Hhi.
  simpl. eexists. reflexivity.
Qed.

Variable KMeans_fit : nat -> list Point -> py (list nat).

Lemma sweep_from_returns (X : list Point) (ks : list nat) (acc : list Q) :
  (forall k, In k ks -> exists s, sweep_step dist KMeans_fit X k = Ret s) ->
  sweep_from dist KMeans_fit X ks acc
  = ((acc ++ List.map (score_of dist KMeans_fit X) ks)%list, None).
Proof.
  revert acc. induction ks as [|k ks IH]; intros acc Hall; simpl.
  - now rewrite app_nil_r.
  - destruct (Hall k (or_introl eq_refl)) as [s Hs].
    unfold score_of at 1. rewrite Hs.
    rewrite IH by (intros k' Hk'; apply Hall; now right).
    now rewrite <- app_assoc.
Qed.

End Scores.

(** C10, amended. Provided the metric is non-negative and each k-means
  fit for k = 2, ..., 10 returns a labelling that [silhouette_score]
  accepts (one label per row, between 2 and n_samples - 1 distinct
  labels), the loop runs to its end without an exception and leaves
  exactly 9 silhouette scores in the list, the i-th being the mean
  silhouette coefficient of the labelling fitted for k = 2 + i, each in
  [-1, 1]. *)
Theorem silhouette_sweep_scores
  (Point : Type) (dist : Point -> Point -> Q)
  (KMeans_fit : nat -> list Point -> py (list nat)) (X : list Point)
  (Hdist : forall x y, 0 <= dist x y)
  (Hfit : forall k, (2 <= k <= 10)%nat ->
            exists labels,
              KMeans_fit k X = Ret labels
              /\ length labels = length X
              /\ (2 <= length (nodup Nat.eq_dec labels) < length X)%nat) :
  exists scores,
    silhouette_sweep dist KMeans_fit X = (scores, None)
    /\ length scores = 9%nat
    /\ (forall i, (i < 9)%nat ->
          exists labels,
            KMeans_fit (2 + i)%nat X = Ret labels
            /\ nth i scores 0
               = arithmetic_mean
                   (List.map (silhouette_sample dist X labels)
                             (combine X labels)))
    /\ Forall unit_interval scores.
Proof.
  assert (Hstep : forall k, (2 <= k <= 10)%nat ->
            exists labels,
              KMeans_fit k X = Ret labels
              /\ score_of dist KMeans_fit X k
                 = arithmetic_mean
                     (List.map (silhouette_sample dist X labels)
                               (combine X labels))
              /\ sweep_step dist KMeans_fit X k
                 = Ret (score_of dist KMeans_fit X k)
              /\ unit_interval (score_of dist KMeans_fit X k)).
  { intros k Hk. destruct (Hfit k Hk) as [labels [Hlab [Hlen Hn]]].
    destruct (silhouette_score_returns dist X labels Hlen Hn) as [s Hs].
    pose proof (silhouette_score_bounded dist Hdist X labels s Hs) as Hb.
    assert (Hk' : sweep_step dist KMeans_fit X k = Ret s)
      by (unfold sweep_step; rewrite Hlab; exact Hs).
    assert (Hsc : score_of dist KMeans_fit X k = s)
      by (unfold score_of; now rewrite Hk').
    exists labels. rewrite Hsc. repeat split; try assumption; try apply Hb.
    unfold silhouette_score in Hs.
    destruct (_ && _); [|discriminate]. now injection Hs as <-. }
  assert (Hrange : forall k, In k (range 2 11) -> (2 <= k <= 10)%nat).
  { intros k Hk. unfold range in Hk. apply in_seq in Hk. lia. }
  exists (List.map (score_of dist KMeans_fit X) (range 2 11)).
  split; [|split; [|split]].
  - unfold silhouette_sweep. rewrite sweep_from_returns; [reflexivity|].
    intros k Hk. destruct (Hstep k (Hrange k Hk)) as [labels [_ [_ [Hs _]]]].
    eexists. exact Hs.
  - reflexivity.
  - intros i Hi.
    rewrite (nth_indep _ 0 (score_of dist KMeans_fit X 0%nat))
      by (rewrite length_map; exact Hi).
    rewrite map_nth. unfold range. rewrite seq_nth by exact Hi.
    destruct (Hstep (2 + i)%nat ltac:(lia)) as [labels [Hlab [Hsc _]]].
    exists labels. split; assumption.
  - apply List.Forall_forall. intros s Hs. apply in_map_iff in Hs.
    destruct Hs as [k [<- Hk]].
    destruct (Hstep k (Hrange k Hk)) as [labels [_ [_ [_ Hb]]]]. exact Hb.
Qed.

(** C10, as stated, fails on small cohorts.  On ten points on a line and a
  fit that gives every point its own cluster at k = 10, the score of
  k = 10 is a [ValueError] and the list is left with the 8 scores of
  k = 2, ..., 9; on two points the loop raises at k = 2 and the list
  stays empty. *)
Lemma sweep_raises_on_small_cohorts :
  (exists scores,
      silhouette_sweep Fixtures.line_dist Fixtures.round_robin_fit
                       Fixtures.ten_points = (scores, Some ValueError)
      /\ length scores = 8%nat)
  /\ silhouette_sweep Fixtures.line_dist Fixtures.round_robin_fit [0; 1]%Z
     = ([], Some ValueError).
Proof.
  split; [eexists; split|]; vm_compute; reflexivity.
Qed.

Lemma line_dist_nonneg (x y : Z) : 0 <= Fixtures.line_dist x y.
Proof. apply Qabs_nonneg. Qed.

Lemma silhouette_sweep_scores_witness :
  exists scores,
    silhouette_sweep Fixtures.line_dist Fixtures.round_robin_fit
                     Fixtures.line_points = (scores, None)
    /\ length scores = 9%nat
    /\ Forall unit_interval scores.
Proof.
  destruct (silhouette_sweep_scores Z Fixtures.line_dist
              Fixtures.round_robin_fit Fixtures.line_points
              line_dist_nonneg) as [scores [Hs [Hl [_ Hb]]]].
  - intros k Hk.
    assert (Hcases : In k (seq 2 9)) by (apply in_seq; lia).
    simpl in Hcases.
    repeat (destruct Hcases as [<- | Hcases];
            [eexists; split; [reflexivity|]; split; [reflexivity|];
             vm_compute; lia|]).
    contradiction.
  - exists scores. auto.
Defined.

End ClusteringFacts.

(** * Further properties of the cleaning cells *)

Module CleaningMore.
Import Pandas Cleaning.

Lemma CSRSS_map_lookup (s : string) :
  CSRSS_map !! s
  = if String.eqb s "No" then Some 0%Q
    else if String.eqb s "Yes" then Some 1%Q else None.
Proof.
  unfold CSRSS_map. simpl.
  rewrite lookup_insert. case_decide as Hno.
  - subst s. reflexivity.
  - apply not_eq_sym in Hno. apply String.eqb_neq in Hno. rewrite Hno.
    rewrite lookup_insert. case_decide as Hyes.
    + subst s. reflexivity.
    + apply not_eq_sym in Hyes. apply String.eqb_neq in Hyes. rewrite Hyes.
      apply lookup_empty.
Qed.

(** The mapped screening flag, read off the raw answer. *)
Lemma mapped_flag_of_raw (x : option string) :
  (Series_map CSRSS_map x = Some 1%Q <-> x = Some "Yes")
  /\ (Series_map CSRSS_map x = Some 0%Q <-> x = Some "No")
  /\ (Series_map CSRSS_map x = None <-> x <> Some "Yes" /\ x <> Some "No").
Proof.
  destruct x as [s|]; simpl.
  - rewrite CSRSS_map_lookup.
    destruct (String.eqb_spec s "No") as [->|Hno].
    + repeat split; intros; try discriminate; try congruence.
      destruct H; congruence.
    + destruct (String.eqb_spec s "Yes") as [->|Hyes].
      * repeat split; intros; try discriminate; try congruence.
        destruct H; congruence.
      * repeat split; intros; try discriminate; try congruence.
  - repeat split; intros; try discriminate; try congruence.
Qed.

(** X2. A screening flag is 1 exactly for the raw answer "Yes", 0 exactly
    for the raw answer "No", and null for every other raw cell, an
    unanswered one or any other spelling. *)
Theorem screening_flags_of_raw_answers (r : Row) :
  (CSRSS_Thoughts r = Some 1%Q <->
     IP_R_NEU_CSSRS_SUICIDAL_THOUGHTS r = Some "Yes")
  /\ (CSRSS_Thoughts r = Some 0%Q <->
     IP_R_NEU_CSSRS_SUICIDAL_THOUGHTS r = Some "No")
  /\ (CSRSS_Thoughts r = None <->
     IP_R_NEU_CSSRS_SUICIDAL_THOUGHTS r <> Some "Yes"
     /\ IP_R_NEU_CSSRS_SUICIDAL_THOUGHTS r <> Some "No")
  /\ (CSRSS_Behaviors r = Some 1%Q <->
     IP_R_SW_CSSRS_SUICIDAL_BEHAVIOR r = Some "Yes")
  /\ (CSRSS_Behaviors r = Some 0%Q <->
     IP_R_SW_CSSRS_SUICIDAL_BEHAVIOR r = Some "No")
  /\ (CSRSS_Behaviors r = None <->
     IP_R_SW_CSSRS_SUICIDAL_BEHAVIOR r <> Some "Yes"
     /\ IP_R_SW_CSSRS_SUICIDAL_BEHAVIOR r <> Some "No").
Proof.
  unfold CSRSS_Thoughts, CSRSS_Behaviors.
  destruct (mapped_flag_of_raw (IP_R_NEU_CSSRS_SUICIDAL_THOUGHTS r)) as [T1 [T0 Tn]].
  destruct (mapped_flag_of_raw (IP_R_SW_CSSRS_SUICIDAL_BEHAVIOR r)) as [B1 [B0 Bn]].
  repeat split; (apply T1 || apply T0 || apply Tn || apply B1 || apply B0 || apply Bn);
    assumption.
Qed.

Lemma either_of_flags (t b : option Q) :
  (t = None \/ t = Some 0%Q \/ t = Some 1%Q) ->
  (b = None \/ b = Some 0%Q \/ b = Some 1%Q) ->
  (if Qlt_le_dec 0 (sum_skipna [t; b]) then 1%Z else 0%Z) = 1%Z
  <-> t = Some 1%Q \/ b = Some 1%Q.
Proof.
  intros [->|[->| ->]] [->|[->| ->]]; simpl sum_skipna;
    (destruct (Qlt_le_dec _ _) as [Hlt|Hle];
     [try (exfalso; vm_compute in Hlt; discriminate)
     |try (exfalso; vm_compute in Hle; apply Hle; reflexivity)]);
    split; auto; try (intros [?|?]; discriminate); try discriminate.
Qed.

(** X3. The either-flag is 1 exactly when at least one of the two raw
    screening answers is the string "Yes". *)
Theorem either_flag_of_raw_answers (r : Row) :
  CSRSS_Either r = 1%Z <->
  IP_R_NEU_CSSRS_SUICIDAL_THOUGHTS r = Some "Yes"
  \/ IP_R_SW_CSSRS_SUICIDAL_BEHAVIOR r = Some "Yes".
Proof.
  destruct (mapped_flag_of_raw (IP_R_NEU_CSSRS_SUICIDAL_THOUGHTS r)) as [T1 _].
  destruct (mapped_flag_of_raw (IP_R_SW_CSSRS_SUICIDAL_BEHAVIOR r)) as [B1 _].
  unfold CSRSS_Either, CSRSS_sum, CSRSS_Thoughts, CSRSS_Behaviors.
  rewrite either_of_flags by apply CleaningFacts.CSRSS_map_cases.
  rewrite T1, B1. reflexivity.
Qed.

Lemma ICD_map_TN_only (s : string) :
  ICD_map !! s = Some "TN" <-> s = "TRIGEMINAL NEURALGIA".
Proof.
  unfold ICD_map. simpl.
  repeat (rewrite lookup_insert; case_decide;
          [subst s; split; [intros [=]|intros [=]]; reflexivity|]).
  rewrite lookup_empty. split; [discriminate|].
  intros ->. congruence.
Qed.

(** X1. The trigeminal-neuralgia flag is 1 exactly when the raw diagnosis
    is the string "TRIGEMINAL NEURALGIA", and 0 for every other raw cell,
    the post-herpetic form, other spellings and missing cells included. *)
Theorem tn_flag_of_raw_diagnosis (r : Row) :
  (ICD_TN r = 1%Z <-> D_ICD_DESC r = Some "TRIGEMINAL NEURALGIA")
  /\ (ICD_TN r = 0%Z <-> D_ICD_DESC r <> Some "TRIGEMINAL NEURALGIA").
Proof.
  assert (H1 : ICD_TN r = 1%Z <-> D_ICD_DESC r = Some "TRIGEMINAL NEURALGIA").
  { unfold ICD_TN, ICD_Clean. destruct (D_ICD_DESC r) as [s|]; simpl.
    - destruct (ICD_map !! s) as [c|] eqn:Hc.
      + destruct (String.eqb_spec c "TN") as [->|Hne].
        * apply ICD_map_TN_only in Hc. subst. tauto.
        * split; [discriminate|]. intros [= ->].
          exfalso. apply Hne.
          assert (Htn : ICD_map !! "TRIGEMINAL NEURALGIA" = Some "TN")
            by (apply ICD_map_TN_only; reflexivity).
          congruence.
      + split; [discriminate|]. intros [= ->].
        assert (Htn : ICD_map !! "TRIGEMINAL NEURALGIA" = Some "TN")
          by (apply ICD_map_TN_only; reflexivity).
        congruence.
    - split; discriminate. }
  split; [exact H1|].
  destruct (ChiSquareFacts.ICD_TN_binary r) as [H0|H1'].
  - rewrite H0. split; [|reflexivity]. intros _ Hraw.
    apply H1 in Hraw. congruence.
  - rewrite H1'. split; [discriminate|]. intros Hne. exfalso.
    apply Hne, H1, H1'.
Qed.

End CleaningMore.

(** * Screening-flag counts and proportions *)

Module ScreeningFacts.
Import Pandas Cleaning Screening.

Lemma filter_length_le_pointwise {A : Type} (f g : A -> bool) (l : list A) :
  (forall a, f a = true -> g a = true) ->
  (length (List.filter f l) <= length (List.filter g l))%nat.
Proof.
  intros Himp. induction l as [|a l IH]; simpl; [lia|].
  destruct (f a) eqn:Hf.
  - rewrite (Himp a Hf). simpl. lia.
  - destruct (g a); simpl; lia.
Qed.

Lemma filter_length_orb {A : Type} (f g : A -> bool) (l : list A) :
  (length (List.filter (fun a => f a || g a) l)
   <= length (List.filter f l) + length (List.filter g l))%nat.
Proof.
  induction l as [|a l IH]; simpl; [lia|].
  destruct (f a), (g a); simpl; lia.
Qed.

Lemma Either_is_one (r : Row) :
  is_value Either_column 1 r
  = is_value CSRSS_Thoughts 1 r || is_value CSRSS_Behaviors 1 r.
Proof.
  unfold is_value, Either_column, CSRSS_Either, CSRSS_sum,
    CSRSS_Thoughts, CSRSS_Behaviors.
  destruct (CleaningFacts.CSRSS_map_cases (IP_R_NEU_CSSRS_SUICIDAL_THOUGHTS r))
    as [Ht|[Ht|Ht]];
  destruct (CleaningFacts.CSRSS_map_cases (IP_R_SW_CSSRS_SUICIDAL_BEHAVIOR r))
    as [Hb|[Hb|Hb]];
  rewrite Ht, Hb; simpl sum_skipna;
  (destruct (Qlt_le_dec _ _) as [Hlt|Hle];
   [try (exfalso; vm_compute in Hlt; discriminate)
   |try (exfalso; vm_compute in Hle; apply Hle; reflexivity)]);
  reflexivity.
Qed.

(** X4. In the value counts of the three flag columns, the rows with
    either-flag 1 are at least as many as the rows with a thoughts flag 1
    and as the rows with a behaviors flag 1, and at most as many as the
    two together. *)
Theorem either_count_between (df : DataFrame) :
  (value_count CSRSS_Thoughts 1 df <= value_count Either_column 1 df)%nat
  /\ (value_count CSRSS_Behaviors 1 df <= value_count Either_column 1 df)%nat
  /\ (value_count Either_column 1 df
      <= value_count CSRSS_Thoughts 1 df + value_count CSRSS_Behaviors 1 df)%nat.
Proof.
  unfold value_count.
  repeat split.
  - apply filter_length_le_pointwise. intros r Hr.
    rewrite Either_is_one, Hr. reflexivity.
  - apply filter_length_le_pointwise. intros r Hr.
    rewrite Either_is_one, Hr. apply orb_true_r.
  - rewrite (filter_ext _ _ Either_is_one). apply filter_length_orb.
Qed.

Lemma binary_sum (cells : list (option Q)) :
  (forall c, In c cells -> c = None \/ c = Some 0%Q \/ c = Some 1%Q) ->
  (sum_skipna cells
   == Qn (length (List.filter
                    (fun c => match c with
                              | Some x => Qeq_bool x 1
                              | None => false
                              end) cells)))%Q.
Proof.
  induction cells as [|c cells IH]; intros Hbin; [reflexivity|].
  assert (IH' := IH (fun c' Hc' => Hbin c' (or_intror Hc'))).
  destruct (Hbin c (or_introl eq_refl)) as [->|[->| ->]]; simpl.
  - exact IH'.
  - rewrite IH'. ring.
  - rewrite IH'. unfold Qn. rewrite Nat2Z.inj_succ, <- Z.add_1_r, inject_Z_plus.
    ring.
Qed.

Lemma value_count_cells (col : Row -> option Q) (df : DataFrame) :
  value_count col 1 df
  = length (List.filter
              (fun c => match c with
                        | Some x => Qeq_bool x 1
                        | None => false
                        end) (List.map col (rows df))).
Proof.
  unfold value_count, is_value.
  induction (rows df) as [|r l IH]; simpl; [reflexivity|].
  destruct (col r) as [x|]; [destruct (Qeq_bool x 1)|]; simpl; now rewrite IH.
Qed.

(** The mean of a 0/1 column with missing cells: NaN when no cell is
    present, otherwise the number of ones over the number of cells that
    are present. *)
Lemma flag_mean_ratio (col : Row -> option Q) (df : DataFrame) :
  (forall r, col r = None \/ col r = Some 0%Q \/ col r = Some 1%Q) ->
  (n_answered col df = 0%nat -> flag_mean col df = None)
  /\ ((0 < n_answered col df)%nat ->
      exists m, flag_mean col df = Some m
                /\ (m == Qn (value_count col 1 df) / Qn (n_answered col df))%Q).
Proof.
  intros Hbin. unfold flag_mean, mean_skipna, n_answered. split.
  - intros ->. reflexivity.
  - intros Hpos.
    destruct (count_notna (List.map col (rows df))) as [|n] eqn:Hn; [lia|].
    eexists. split; [reflexivity|].
    rewrite binary_sum, <- value_count_cells; [reflexivity|].
    intros c Hc. apply in_map_iff in Hc. destruct Hc as [r [<- _]]. apply Hbin.
Qed.

Lemma Either_column_binary (r : Row) :
  Either_column r = None \/ Either_column r = Some 0%Q
  \/ Either_column r = Some 1%Q.
Proof.
  unfold Either_column, CSRSS_Either.
  destruct (Qlt_le_dec _ _); [right; right|right; left]; reflexivity.
Qed.

Lemma Either_all_answered (df : DataFrame) :
  n_answered Either_column df = Demographics.n_entries df.
Proof.
  unfold n_answered, Demographics.n_entries, rows.
  induction df as [|ir df IH]; simpl; [reflexivity|]. now rewrite IH.
Qed.

(** X5. The printed proportions have different denominators.  The mean of
    a thoughts or behaviors flag is NaN when nobody answered and otherwise
    the number of "Yes" over the number of rows that answered that
    question; the mean of the either-flag is NaN only for an empty frame
    and otherwise the number of flagged rows over the number of all rows,
    rows without any answer included. *)
Theorem flag_proportions (df : DataFrame) :
  (forall col, col = CSRSS_Thoughts \/ col = CSRSS_Behaviors ->
     (n_answered col df = 0%nat -> flag_mean col df = None)
     /\ ((0 < n_answered col df)%nat ->
         exists m, flag_mean col df = Some m
                   /\ (m == Qn (value_count col 1 df)
                            / Qn (n_answered col df))%Q))
  /\ (df = [] -> Either_mean df = None)
  /\ (df <> [] ->
      exists m, Either_mean df = Some m
                /\ (m == Qn (value_count Either_column 1 df)
                         / Qn (Demographics.n_entries df))%Q).
Proof.
  split; [|split].
  - intros col [-> | ->]; apply flag_mean_ratio; intros r;
      apply CleaningFacts.CSRSS_map_cases.
  - intros ->. reflexivity.
  - intros Hne.
    destruct (flag_mean_ratio Either_column df Either_column_binary) as [_ H].
    rewrite Either_all_answered in H. apply H.
    unfold Demographics.n_entries. destruct df; [congruence|simpl; lia].
Qed.

End ScreeningFacts.

(** * Further properties of the cohort filter *)

Module CohortMore.
Import Pandas Cleaning BPI ML CohortFacts.

Lemma missing_index_In (cols : list string) (d : DataFrame) (z : Z) :
  In z (missing_index cols d) <->
  exists ir, In ir d /\ fst ir = z /\ any_null (select cols (snd ir)) = true.
Proof.
  unfold missing_index, index. rewrite in_map_iff. split.
  - intros [ir [Hz Hin]]. apply filter_In in Hin. exists ir. tauto.
  - intros [ir [Hin [Hz Hnull]]]. exists ir. split; [exact Hz|].
    apply filter_In. tauto.
Qed.

(** The test that [drop] applies to one row. *)
Lemma kept_iff (cols : list string) (d : DataFrame) (ir : Z * Row) :
  negb (existsb (Z.eqb (fst ir)) (missing_index cols d)) = true <->
  (forall ir', In ir' d -> fst ir' = fst ir ->
               any_null (select cols (snd ir')) = false).
Proof.
  rewrite negb_true_iff. split.
  - intros Hnot ir' Hin Hlab.
    destruct (any_null (select cols (snd ir'))) eqn:Hnull; [|reflexivity].
    assert (Hex : existsb (Z.eqb (fst ir)) (missing_index cols d) = true).
    { apply existsb_label. apply missing_index_In. exists ir'. tauto. }
    congruence.
  - intros Hall.
    destruct (existsb (Z.eqb (fst ir)) (missing_index cols d)) eqn:Hex;
      [|reflexivity].
    apply existsb_label, missing_index_In in Hex.
    destruct Hex as [ir' [Hin [Hlab Hnull]]].
    rewrite (Hall ir' Hin Hlab) in Hnull. discriminate.
Qed.

(** X6. A row survives the cohort filter exactly when no row carrying the
    same index label, itself included, has a missing cell in the required
    columns: the rows are dropped by label, so a complete row that shares
    its label with an incomplete one goes too. *)
Theorem cohort_filter_keeps (cols : list string) (d : DataFrame) (ir : Z * Row) :
  In ir (cohort_filter cols d) <->
  In ir d
  /\ (forall ir', In ir' d -> fst ir' = fst ir ->
                  any_null (select cols (snd ir')) = false).
Proof.
  unfold cohort_filter, drop. rewrite filter_In, kept_iff. reflexivity.
Qed.

Lemma kept_members (cols : list string) (d : DataFrame) (ir : Z * Row) :
  In ir (cohort_filter cols d) <->
  In ir d /\ negb (existsb (Z.eqb (fst ir)) (missing_index cols d)) = true.
Proof. unfold cohort_filter, drop. apply filter_In. Qed.

Lemma filter_twice {A : Type} (f g : A -> bool) (l : list A) :
  List.filter g (List.filter f l) = List.filter (fun a => f a && g a) l.
Proof.
  induction l as [|a l IH]; simpl; [reflexivity|].
  destruct (f a); simpl; [destruct (g a); now rewrite IH|exact IH].
Qed.

Lemma cohort_filter_app (a b : list string) (d : DataFrame) :
  cohort_filter (a ++ b) d = cohort_filter b (cohort_filter a d).
Proof.
  unfold cohort_filter at 1 2. unfold drop at 1 2.
  fold (cohort_filter a d). unfold cohort_filter at 2. unfold drop.
  rewrite filter_twice. apply filter_ext_in. intros ir Hin.
  apply eq_true_iff_eq. rewrite andb_true_iff, !kept_iff. split.
  - intros Hall. split.
    + intros ir' Hin' Hlab. specialize (Hall ir' Hin' Hlab).
      rewrite any_null_app in Hall. now apply orb_false_elim in Hall.
    + intros ir' Hin' Hlab. apply cohort_filter_incl in Hin'.
      specialize (Hall ir' Hin' Hlab).
      rewrite any_null_app in Hall. now apply orb_false_elim in Hall.
  - intros [Ha Hb] ir' Hin' Hlab. rewrite any_null_app.
    rewrite (Ha ir' Hin' Hlab). simpl. apply Hb; [|exact Hlab].
    apply kept_members. split; [exact Hin'|]. apply kept_iff.
    intros ir'' Hin'' Hlab'. apply Ha; [exact Hin''|congruence].
Qed.

(** X7. Filtering on two lists of required columns at once is filtering
    on one list and then on the other, in either order; in particular the
    cohort is reached by filtering on the pain-intensity items, then the
    general-interference items, then the face-specific items, then the
    total score. *)
Theorem cohort_filter_composes (a b : list string) (d : DataFrame) :
  cohort_filter (a ++ b) d = cohort_filter b (cohort_filter a d)
  /\ cohort_filter b (cohort_filter a d) = cohort_filter a (cohort_filter b d)
  /\ amb_df d
     = cohort_filter [total_score]
         (cohort_filter amb_specific
            (cohort_filter amb_interference
               (cohort_filter amb_painintensity d))).
Proof.
  split; [apply cohort_filter_app|]. split.
  - rewrite <- !cohort_filter_app.
    unfold cohort_filter, drop. apply filter_ext. intros ir.
    apply eq_true_iff_eq. rewrite !kept_iff.
    split; intros Hall ir' Hin Hlab; specialize (Hall ir' Hin Hlab);
      rewrite any_null_app in *; apply orb_false_elim in Hall;
      destruct Hall as [-> ->]; reflexivity.
  - unfold amb_df, amb_any. now rewrite !cohort_filter_app.
Qed.

(** X8. The excluded labels and the cohort account for the frame: the
    flagged labels and the kept rows are together at most the rows of the
    frame, and exactly the rows of the frame when the index labels are
    distinct; the kept rows are then the complete rows, in their order. *)
Theorem cohort_accounting (cols : list string) (d : DataFrame) :
  (length (missing_index cols d) + length (cohort_filter cols d)
   <= length d)%nat
  /\ (List.NoDup (index d) ->
      (length (missing_index cols d) + length (cohort_filter cols d)
       = length d)%nat
      /\ cohort_filter cols d
         = List.filter (fun ir => negb (any_null (select cols (snd ir)))) d).
Proof.
  pose proof (filter_length (fun ir => any_null (select cols (snd ir))) d)
    as Hpart.
  assert (Hmiss : length (missing_index cols d)
                  = length (List.filter
                              (fun ir => any_null (select cols (snd ir))) d)).
  { unfold missing_index, index. apply length_map. }
  split.
  - rewrite Hmiss, <- Hpart. apply Nat.add_le_mono_l.
    unfold cohort_filter, drop.
    induction d as [|ir d' _]; [simpl; lia|].
    clear Hpart Hmiss.
    remember (missing_index cols (ir :: d')) as labels eqn:Hl.
    assert (Himp : forall x, In x (ir :: d') ->
              negb (existsb (Z.eqb (fst x)) labels) = true ->
              negb (any_null (select cols (snd x))) = true).
    { intros x Hx Hkeep. subst labels.
      rewrite kept_iff in Hkeep. now rewrite (Hkeep x Hx eq_refl). }
    clear Hl. induction (ir :: d') as [|x l IH]; simpl; [lia|].
    assert (IH' := IH (fun y Hy => Himp y (or_intror Hy))).
    destruct (negb (existsb (Z.eqb (fst x)) labels)) eqn:Hk.
    + rewrite (Himp x (or_introl eq_refl) Hk). simpl. lia.
    + destruct (negb (any_null (select cols (snd x)))); simpl; lia.
  - intros Hnd. rewrite (cohort_filter_unique_index cols d Hnd).
    split; [|reflexivity]. rewrite Hmiss. exact Hpart.
Qed.

Lemma cohort_accounting_witness :
  List.NoDup (index Fixtures.df_one_incomplete)
  /\ (length (amb_df_missing Fixtures.df_one_incomplete)
      + length (amb_df Fixtures.df_one_incomplete) = 5)%nat.
Proof.
  assert (Hnd : List.NoDup (index Fixtures.df_one_incomplete)).
  { unfold Fixtures.df_one_incomplete, index. simpl.
    repeat constructor; simpl; intuition discriminate. }
  split; [exact Hnd|].
  apply (cohort_accounting amb_any Fixtures.df_one_incomplete). exact Hnd.
Defined.

End CohortMore.

(** * The subgroups of the Levene and Welch tests *)

Module SubgroupFacts.
Import Pandas Cleaning BPI CohortFacts.

Lemma dropna_present {A : Type} (f : A -> option Q) (l : list A) :
  (forall a, In a l -> f a <> None) ->
  List.map Some (dropna (List.map f l)) = List.map f l.
Proof.
  induction l as [|a l IH]; intros Hall; simpl; [reflexivity|].
  destruct (f a) eqn:Hfa.
  - simpl. f_equal. apply IH. intros a' Ha'. apply Hall. now right.
  - exfalso. apply (Hall a); [now left|assumption].
Qed.

(** Masking an array that is aligned with a list of rows selects the
    values of the rows that pass the mask. *)
Lemma select_mask_aligned {A : Type} (f : A -> option Q) (g : A -> bool)
  (l : list A) (xs : list Q) :
  List.map Some xs = List.map f l ->
  List.map Some (select_mask (List.map g l) xs)
  = List.map f (List.filter g l).
Proof.
  revert xs. induction l as [|a l IH]; intros [|x xs] Hal; simpl in *;
    try discriminate; [reflexivity|].
  injection Hal as Hx Hal.
  destruct (g a); simpl; [rewrite <- Hx; f_equal|]; now apply IH.
Qed.

Lemma domain_mean_present (cols : list string) (df : DataFrame) (r : Row) :
  In cols [amb_painintensity; amb_interference; amb_specific] ->
  In r (rows (amb_df df)) -> domain_mean cols r <> None.
Proof.
  intros Hcols Hr.
  destruct (cohort_row_scored df r Hr) as [Sp [Sg Sf]].
  destruct Hcols as [<-|[<-|[<-|[]]]];
    [destruct Sp as [? [? [_ [Hm _]]]]
    |destruct Sg as [? [? [_ [Hm _]]]]
    |destruct Sf as [? [? [_ [Hm _]]]]]; congruence.
Qed.

(** X9. The boolean masks pick the right rows.  For each of the three
    domains the subgroup compared as flagged holds, in cohort order, the
    domain scores of exactly the cohort rows whose either-flag is 1, and
    the other subgroup those of the cohort rows whose either-flag is 0;
    neither indexing raises. *)
Theorem subgroups_follow_the_flag (df : DataFrame) (cols : list string)
  (Hcols : In cols [amb_painintensity; amb_interference; amb_specific]) :
  let domain := fun df => List.map (domain_mean cols) (rows (amb_df df)) in
  exists sui notsui,
    split_sui domain df = Ret sui
    /\ split_notsui domain df = Ret notsui
    /\ List.map Some sui
       = List.map (domain_mean cols)
           (List.filter (fun r => Z.eqb 1 (CSRSS_Either r)) (rows (amb_df df)))
    /\ List.map Some notsui
       = List.map (domain_mean cols)
           (List.filter (fun r => Z.eqb 0 (CSRSS_Either r)) (rows (amb_df df))).
Proof.
  intros domain. unfold domain, split_sui, split_notsui, boolean_index, is_sui.
  change (drop (amb_df_missing df) df) with (amb_df df).
  assert (Hal : List.map Some
                  (dropna (List.map (domain_mean cols) (rows (amb_df df))))
                = List.map (domain_mean cols) (rows (amb_df df))).
  { apply dropna_present. intros r Hr.
    now apply (domain_mean_present cols df). }
  assert (Hlen : length (dropna (List.map (domain_mean cols) (rows (amb_df df))))
                 = length (rows (amb_df df))).
  { apply (f_equal (@length _)) in Hal. now rewrite !length_map in Hal. }
  rewrite !length_map, Hlen, Nat.eqb_refl.
  do 2 eexists. split; [reflexivity|]. split; [reflexivity|].
  rewrite !List.map_map.
  split; apply (select_mask_aligned (domain_mean cols)); exact Hal.
Qed.

Lemma subgroups_follow_the_flag_witness :
  exists sui notsui,
    painintensity_sui Fixtures.df_unequal_variances = Ret sui
    /\ painintensity_notsui Fixtures.df_unequal_variances = Ret notsui
    /\ length sui = 2%nat /\ length notsui = 5%nat.
Proof.
  destruct (subgroups_follow_the_flag Fixtures.df_unequal_variances
              amb_painintensity (or_introl eq_refl))
    as [sui [notsui [Hs [Hn [Hsv Hnv]]]]].
  exists sui, notsui. split; [exact Hs|]. split; [exact Hn|].
  apply (f_equal (@length _)) in Hsv, Hnv.
  rewrite !length_map in Hsv, Hnv. split; [exact Hsv|exact Hnv].
Defined.

(** X14. The series that the summary cell averages have no missing value:
    [dropna()] leaves each of the three domain-score series as it is, and
    every total score of the cohort is present. *)
Theorem cohort_series_are_complete (df : DataFrame) :
  List.map Some (dropna (amb_painintensity_df df)) = amb_painintensity_df df
  /\ List.map Some (dropna (amb_interference_df df)) = amb_interference_df df
  /\ List.map Some (dropna (amb_specific_df df)) = amb_specific_df df
  /\ Forall (fun t => t <> None) (amb_total_scores df).
Proof.
  unfold amb_painintensity_df, amb_interference_df, amb_specific_df.
  repeat split;
    try (apply dropna_present; intros r Hr;
         apply (domain_mean_present _ df); [simpl; tauto|exact Hr]).
  unfold amb_total_scores. apply List.Forall_forall. intros t Ht.
  apply in_map_iff in Ht. destruct Ht as [r [<- Hr]].
  apply cohort_row_complete in Hr. apply amb_any_complete in Hr. tauto.
Qed.

End SubgroupFacts.

(** * Further properties of the chi-square tables *)

Module ChiSquareMore.
Import Pandas Cleaning ChiSquare ChiSquareFacts.

Lemma list_sum_perm (l l' : list nat) :
  Permutation l l' -> list_sum l = list_sum l'.
Proof. induction 1; simpl; lia. Qed.

Lemma list_sum_cons (n : nat) (l : list nat) :
  list_sum (n :: l) = (n + list_sum l)%nat.
Proof. reflexivity. Qed.

Section Counting.
Context {A : Type}.
Variable dec : forall x y : A, {x = y} + {x <> y}.

Lemma indicator_sum (x : A) (l : list A) :
  List.NoDup l -> In x l ->
  list_sum (List.map (fun v => if dec x v then 1 else 0)%nat l) = 1%nat.
Proof.
  induction 1 as [|v l Hv Hnd IH]; intros Hin; [contradiction|]. simpl.
  destruct (dec x v) as [->|Hne].
  - assert (Hz : list_sum (List.map (fun v' => if dec v v' then 1 else 0)%nat l)
                 = 0%nat).
    { clear IH Hnd Hin. induction l as [|w l IHl]; [reflexivity|]. simpl.
      destruct (dec v w) as [->|_]; [exfalso; apply Hv; now left|].
      apply IHl. intros Hw. apply Hv. now right. }
    rewrite Hz. reflexivity.
  - destruct Hin as [->|Hin]; [congruence|]. now apply IH.
Qed.

(** Counting each distinct value of a list once counts the list. *)
Lemma count_occ_total (vals l : list A) :
  List.NoDup l -> (forall v, In v vals -> In v l) ->
  list_sum (List.map (count_occ dec vals) l) = length vals.
Proof.
  intros Hnd. induction vals as [|x vals IH]; intros Hcov.
  - clear. simpl. induction l as [|v l IHl]; simpl; [reflexivity|exact IHl].
  - assert (Hsplit : list_sum (List.map (count_occ dec (x :: vals)) l)
                     = (list_sum (List.map
                                    (fun v => if dec x v then 1 else 0)%nat l)
                        + list_sum (List.map (count_occ dec vals) l))%nat).
    { clear. induction l as [|v l IHl]; [reflexivity|].
      rewrite !map_cons, !list_sum_cons, IHl. simpl count_occ.
      destruct (dec x v); lia. }
    rewrite Hsplit, (indicator_sum x l Hnd (Hcov x (or_introl eq_refl))).
    rewrite IH by (intros v Hv; apply Hcov; now right). reflexivity.
Qed.

End Counting.

Lemma insert_by_count_sum (x : Z * nat) (l : list (Z * nat)) :
  list_sum (List.map snd (insert_by_count x l))
  = (snd x + list_sum (List.map snd l))%nat.
Proof.
  induction l as [|h t IH]; simpl; [reflexivity|].
  destruct (Nat.ltb _ _); simpl; [rewrite IH|]; lia.
Qed.

Lemma insert_by_count_In (x y : Z * nat) (l : list (Z * nat)) :
  In y (insert_by_count x l) <-> y = x \/ In y l.
Proof.
  induction l as [|h t IH]; simpl; [intuition congruence|].
  destruct (Nat.ltb _ _); simpl; [rewrite IH|]; intuition congruence.
Qed.

(** The counts of [value_counts] add up to the number of values. *)
Lemma value_counts_sum (vals : list Z) :
  list_sum (List.map snd (value_counts vals)) = length vals.
Proof.
  unfold value_counts.
  assert (Hsum : forall l,
            list_sum (List.map snd
              (fold_right insert_by_count []
                 (List.map (fun v => (v, count_occ Z.eq_dec vals v)) l)))
            = list_sum (List.map (count_occ Z.eq_dec vals) l)).
  { induction l as [|v l IH]; [reflexivity|]. simpl.
    now rewrite insert_by_count_sum, IH. }
  rewrite Hsum.
  rewrite (list_sum_perm _ _
             (Permutation_map _ (sort_keys_perm Z.leb (nodup Z.eq_dec vals)))).
  apply count_occ_total; [apply NoDup_nodup|].
  intros v Hv. now apply nodup_In.
Qed.

(** Every count listed by [value_counts] is positive. *)
Lemma value_counts_positive (vals : list Z) (n : nat) :
  In n (List.map snd (value_counts vals)) -> (0 < n)%nat.
Proof.
  unfold value_counts. rewrite in_map_iff. intros [[v c] [<- Hin]]. simpl.
  assert (Hgen : forall l,
            In (v, c) (fold_right insert_by_count []
                         (List.map (fun v => (v, count_occ Z.eq_dec vals v)) l)) ->
            In v l /\ c = count_occ Z.eq_dec vals v).
  { induction l as [|w l IH]; simpl; [contradiction|].
    rewrite insert_by_count_In. intros [[= -> ->]|Hl]; [tauto|].
    destruct (IH Hl). tauto. }
  destruct (Hgen _ Hin) as [Hv ->].
  apply (count_occ_In Z.eq_dec).
  apply (nodup_In Z.eq_dec).
  eapply Permutation_in; [apply sort_keys_perm|exact Hv].
Qed.

Section Grouped.
Context {K : Type}.
Variable Keq_dec : forall x y : K, {x = y} + {x <> y}.
Variable Kleb : K -> K -> bool.

Lemma group_size_count (kv : list (option K * Z)) (k : K) :
  length (group_values Keq_dec kv k)
  = count_occ Keq_dec (present (List.map fst kv)) k.
Proof.
  unfold group_values. rewrite length_map.
  induction kv as [|[[k'|] v] kv IH]; simpl; [reflexivity| |exact IH].
  destruct (Keq_dec k k') as [->|Hne].
  - destruct (Keq_dec k' k'); [simpl; now rewrite IH|congruence].
  - destruct (Keq_dec k' k); [congruence|exact IH].
Qed.

Lemma list_sum_flat_map (f : K -> list nat) (l : list K) :
  list_sum (flat_map f l) = list_sum (List.map (fun k => list_sum (f k)) l).
Proof.
  induction l as [|k l IH]; [reflexivity|]. simpl.
  now rewrite list_sum_app, IH.
Qed.

(** The grouped value counts add up to the number of rows that have a
    group key. *)
Lemma grouped_counts_sum (kv : list (option K * Z)) :
  list_sum (groupby_value_counts Keq_dec Kleb kv)
  = length (present (List.map fst kv)).
Proof.
  unfold groupby_value_counts. rewrite list_sum_flat_map.
  rewrite (List.map_ext _ (count_occ Keq_dec (present (List.map fst kv))))
    by (intros k; now rewrite value_counts_sum, group_size_count).
  unfold group_keys.
  rewrite (list_sum_perm _ _ (Permutation_map _ (sort_keys_perm Kleb _))).
  apply count_occ_total; [apply NoDup_nodup|].
  intros k Hk. now apply nodup_In.
Qed.

Lemma grouped_counts_positive (kv : list (option K * Z)) (n : nat) :
  In n (groupby_value_counts Keq_dec Kleb kv) -> (0 < n)%nat.
Proof.
  unfold groupby_value_counts. rewrite in_flat_map.
  intros [k [_ Hn]]. eapply value_counts_positive. exact Hn.
Qed.

End Grouped.

(** X10. The cells of a tested table add up to the number of rows that
    have a group key: rows without a recorded sex are left out of the
    sex-by-flag test, and the diagnosis-by-flag test counts every row. *)
Theorem tested_table_total (df : DataFrame) :
  (forall a b c d,
      csrss_counts_gender df = Ret ((a, b), (c, d)) ->
      (a + b + c + d)%nat = length (present (List.map D_GENDER_DESC (rows df))))
  /\ (forall a b c d,
      csrss_counts_tn df = Ret ((a, b), (c, d)) ->
      (a + b + c + d)%nat = Demographics.n_entries df).
Proof.
  split; intros a b c d Ht.
  - unfold csrss_counts_gender in Ht.
    assert (Hsum : list_sum
                     (groupby_value_counts String.string_dec String.leb
                        (List.map (fun r => (D_GENDER_DESC r, CSRSS_Either r))
                                  (rows df)))
                   = length (present (List.map D_GENDER_DESC (rows df))))
      by (rewrite grouped_counts_sum, List.map_map; reflexivity).
    rewrite <- Hsum.
    destruct (groupby_value_counts _ _ _) as [|a' [|b' [|c' [|d' [|e l]]]]];
      simpl in Ht; try discriminate.
    injection Ht as -> -> -> ->. simpl. lia.
  - unfold csrss_counts_tn in Ht.
    assert (Hall : length (present (List.map (fun r => Some (ICD_TN r)) (rows df)))
                   = Demographics.n_entries df).
    { clear Ht. unfold Demographics.n_entries, rows. rewrite List.map_map.
      induction df as [|ir df IH]; simpl; [reflexivity|]. f_equal. exact IH. }
    assert (Hsum : list_sum
                     (groupby_value_counts Z.eq_dec Z.leb
                        (List.map (fun r => (Some (ICD_TN r), CSRSS_Either r))
                                  (rows df)))
                   = Demographics.n_entries df)
      by (rewrite grouped_counts_sum, List.map_map; exact Hall).
    rewrite <- Hsum.
    destruct (groupby_value_counts _ _ _) as [|a' [|b' [|c' [|d' [|e l]]]]];
      simpl in Ht; try discriminate.
    injection Ht as -> -> -> ->. simpl. lia.
Qed.

(** Inside a group where both flag values occur, [value_counts] lists the
    larger count first. *)
Lemma value_counts_larger_first (vals : list Z) :
  (forall v, In v vals -> v = 0%Z \/ v = 1%Z) ->
  (0 < count_occ Z.eq_dec vals 0%Z)%nat ->
  (0 < count_occ Z.eq_dec vals 1%Z)%nat ->
  List.map snd (value_counts vals)
  = [Nat.max (count_occ Z.eq_dec vals 0%Z) (count_occ Z.eq_dec vals 1%Z);
     Nat.min (count_occ Z.eq_dec vals 0%Z) (count_occ Z.eq_dec vals 1%Z)].
Proof.
  intros Hbin H0 H1. unfold value_counts.
  assert (Hsorted : sort_keys Z.leb (nodup Z.eq_dec vals) = [0%Z; 1%Z]).
  { destruct (two_element_list (nodup Z.eq_dec vals) 0%Z 1%Z) as [-> | ->];
      try reflexivity.
    - apply NoDup_nodup.
    - intros v Hv. apply nodup_In in Hv. now apply Hbin.
    - apply nodup_In. now apply (count_occ_In Z.eq_dec).
    - apply nodup_In. now apply (count_occ_In Z.eq_dec).
    - discriminate. }
  rewrite Hsorted. simpl.
  destruct (Nat.ltb_spec (count_occ Z.eq_dec vals 0%Z)
                         (count_occ Z.eq_dec vals 1%Z)); simpl;
    f_equal; try f_equal; lia.
Qed.

(** X11. With two groups in which both flag values occur, each row of the
    tested table holds the larger count of its group first and the smaller
    one second, whichever flag value they belong to: the row is the
    contingency-table row when the unflagged rows are at least as many as
    the flagged ones, and that row reversed otherwise. *)
Theorem tested_rows_larger_count_first {K : Type}
  (Keq_dec : forall x y : K, {x = y} + {x <> y}) (Kleb : K -> K -> bool)
  (kv : list (option K * Z)) (g1 g2 : K)
  (H12 : Kleb g1 g2 = true) (H21 : Kleb g2 g1 = false)
  (Hkeys : forall p, In p kv ->
             fst p = None \/ fst p = Some g1 \/ fst p = Some g2)
  (Hbin : forall p, In p kv -> snd p = 0%Z \/ snd p = 1%Z)
  (Hcells : forall g e, g = g1 \/ g = g2 -> e = 0%Z \/ e = 1%Z ->
              (0 < cell Keq_dec kv g e)%nat) :
  reshape_2_2 (groupby_value_counts Keq_dec Kleb kv)
  = Ret ((Nat.max (cell Keq_dec kv g1 0) (cell Keq_dec kv g1 1),
          Nat.min (cell Keq_dec kv g1 0) (cell Keq_dec kv g1 1)),
         (Nat.max (cell Keq_dec kv g2 0) (cell Keq_dec kv g2 1),
          Nat.min (cell Keq_dec kv g2 0) (cell Keq_dec kv g2 1))).
Proof.
  assert (Hne : g1 <> g2) by (intros ->; congruence).
  assert (Hgroup : forall g, g = g1 \/ g = g2 ->
            List.map snd (value_counts (group_values Keq_dec kv g))
            = [Nat.max (cell Keq_dec kv g 0) (cell Keq_dec kv g 1);
               Nat.min (cell Keq_dec kv g 0) (cell Keq_dec kv g 1)]).
  { intros g Hg. rewrite <- !count_occ_group_values.
    apply value_counts_larger_first.
    - intros v Hv. apply group_values_In in Hv.
      destruct Hv as [p [Hp <-]]. now apply Hbin.
    - rewrite count_occ_group_values. apply Hcells; auto.
    - rewrite count_occ_group_values. apply Hcells; auto. }
  assert (Hin : forall g, g = g1 \/ g = g2 -> In (Some g) (List.map fst kv)).
  { intros g Hg. pose proof (Hcells g 1%Z Hg (or_intror eq_refl)) as Hpos.
    unfold cell in Hpos.
    destruct (List.filter _ kv) as [|p l] eqn:Hf; [simpl in Hpos; lia|].
    assert (Hp : In p (List.filter
                         (fun p => key_is Keq_dec g (fst p) && Z.eqb (snd p) 1) kv))
      by (rewrite Hf; now left).
    apply filter_In in Hp. destruct Hp as [Hp Hk].
    apply andb_true_iff in Hk. destruct Hk as [Hk _].
    apply in_map_iff. exists p. split; [|exact Hp].
    unfold key_is in Hk. destruct (fst p) as [k|]; [|discriminate].
    destruct (Keq_dec g k); [congruence|discriminate]. }
  assert (Hkeys' : group_keys Keq_dec Kleb (List.map fst kv) = [g1; g2]).
  { unfold group_keys.
    destruct (two_element_list
                (nodup Keq_dec (present (List.map fst kv))) g1 g2) as [-> | ->].
    - apply NoDup_nodup.
    - intros k Hk. apply nodup_In, present_In, in_map_iff in Hk.
      destruct Hk as [p [Hfst Hp]].
      destruct (Hkeys p Hp) as [H|[H|H]]; rewrite H in Hfst;
        [discriminate|left|right]; congruence.
    - apply nodup_In, present_In, Hin. now left.
    - apply nodup_In, present_In, Hin. now right.
    - exact Hne.
    - simpl. now rewrite H12.
    - simpl. now rewrite H21. }
  unfold groupby_value_counts. rewrite Hkeys'. simpl.
  rewrite (Hgroup g1), (Hgroup g2) by auto. reflexivity.
Qed.

Lemma tested_rows_larger_count_first_witness :
  csrss_counts_gender Fixtures.df_men_mostly_positive
  = Ret ((Nat.max 3 1, Nat.min 3 1), (Nat.max 1 3, Nat.min 1 3)).
Proof.
  unfold csrss_counts_gender.
  apply (tested_rows_larger_count_first String.string_dec String.leb
           (List.map (fun r => (D_GENDER_DESC r, CSRSS_Either r))
                     (rows Fixtures.df_men_mostly_positive))
           "Female" "Male").
  - reflexivity.
  - reflexivity.
  - intros p Hp. simpl in Hp.
    repeat (destruct Hp as [<-|Hp]; [simpl; auto|]). contradiction.
  - intros p Hp. apply (gender_pairs_binary Fixtures.df_men_mostly_positive).
    exact Hp.
  - intros g e [-> | ->] [-> | ->]; vm_compute; lia.
Defined.

Lemma Qn_positive (n : nat) : (0 < n)%nat -> (0 < Qn n)%Q.
Proof. unfold Qn, Qlt. simpl. lia. Qed.

Lemma expected_positive (r c n : nat) :
  (0 < r)%nat -> (0 < c)%nat -> (0 < n)%nat ->
  (0 < Qn r * Qn c / Qn n)%Q.
Proof.
  intros Hr Hc Hn. apply Qlt_shift_div_l; [now apply Qn_positive|].
  rewrite Qmult_0_l. apply Qmult_lt_0_compat; now apply Qn_positive.
Qed.

Lemma term_nonneg (o e : Q) : (0 < e)%Q -> (0 <= term o e)%Q.
Proof.
  intros He. unfold term. apply Qle_shift_div_l; [exact He|].
  rewrite Qmult_0_l.
  destruct (Qlt_le_dec (yates o e - e) 0) as [Hneg|Hpos].
  - assert (Hsq : ((yates o e - e) * (yates o e - e)
                   == (- (yates o e - e)) * (- (yates o e - e)))%Q) by ring.
    rewrite Hsq. apply Qmult_le_0_compat; lra.
  - now apply Qmult_le_0_compat.
Qed.

Lemma positive_not_zero (e : Q) : (0 < e)%Q -> Qeq_bool e 0 = false.
Proof.
  intros He. destruct (Qeq_bool e 0) eqn:Hz; [|reflexivity].
  apply Qeq_bool_iff in Hz. rewrite Hz in He. discriminate.
Qed.

(** On a table without an empty cell the test returns, with one degree
    of freedom and a statistic that is not negative. *)
Lemma chi2_contingency_returns (a b c d : nat) :
  (0 < a)%nat -> (0 < b)%nat -> (0 < c)%nat -> (0 < d)%nat ->
  exists s, chi2_contingency ((a, b), (c, d)) = Ret (s, 1%Z) /\ (0 <= s)%Q.
Proof.
  intros Ha Hb Hc Hd. unfold chi2_contingency.
  assert (Ea := expected_positive (a + b) (a + c) (a + b + c + d)
                  ltac:(lia) ltac:(lia) ltac:(lia)).
  assert (Eb := expected_positive (a + b) (b + d) (a + b + c + d)
                  ltac:(lia) ltac:(lia) ltac:(lia)).
  assert (Ec := expected_positive (c + d) (a + c) (a + b + c + d)
                  ltac:(lia) ltac:(lia) ltac:(lia)).
  assert (Ed := expected_positive (c + d) (b + d) (a + b + c + d)
                  ltac:(lia) ltac:(lia) ltac:(lia)).
  rewrite (positive_not_zero _ Ea), (positive_not_zero _ Eb),
    (positive_not_zero _ Ec), (positive_not_zero _ Ed). simpl.
  eexists. split; [reflexivity|].
  pose proof (term_nonneg (Qn a) _ Ea). pose proof (term_nonneg (Qn b) _ Eb).
  pose proof (term_nonneg (Qn c) _ Ec). pose proof (term_nonneg (Qn d) _ Ed).
  lra.
Qed.

(** What the test does on any list of grouped counts. *)
Lemma chi2_of_counts (v : list nat) :
  (forall n, In n v -> (0 < n)%nat) ->
  match t ← reshape_2_2 v; chi2_contingency t with
  | Ret (s, dof) => length v = 4%nat /\ dof = 1%Z /\ (0 <= s)%Q
  | Raise e => e = ValueError /\ length v <> 4%nat
  end.
Proof.
  intros Hpos.
  destruct v as [|a [|b [|c [|d [|e v]]]]]; lazy [reshape_2_2 mbind py_bind];
    try (split; [reflexivity|simpl; lia]).
  destruct (chi2_contingency_returns a b c d) as [s [Hs Hs0]];
    try (apply Hpos; simpl; tauto).
  rewrite Hs. auto.
Qed.

(** X12. Each chi-square operation either returns a statistic that is not
    negative with one degree of freedom, which happens exactly when the
    grouped value counts have four entries, or raises [ValueError], which
    happens exactly when they do not; it raises nothing else, and once
    the counts reshape the test itself cannot fail. *)
Theorem chi_square_outcomes (df : DataFrame) :
  match chi2_gender df with
  | Ret (s, dof) =>
      length (groupby_value_counts String.string_dec String.leb
                (List.map (fun r => (D_GENDER_DESC r, CSRSS_Either r)) (rows df)))
      = 4%nat /\ dof = 1%Z /\ (0 <= s)%Q
  | Raise e =>
      e = ValueError
      /\ length (groupby_value_counts String.string_dec String.leb
                   (List.map (fun r => (D_GENDER_DESC r, CSRSS_Either r)) (rows df)))
         <> 4%nat
  end
  /\ match chi2_tn df with
     | Ret (s, dof) =>
         length (groupby_value_counts Z.eq_dec Z.leb
                   (List.map (fun r => (Some (ICD_TN r), CSRSS_Either r)) (rows df)))
         = 4%nat /\ dof = 1%Z /\ (0 <= s)%Q
     | Raise e =>
         e = ValueError
         /\ length (groupby_value_counts Z.eq_dec Z.leb
                      (List.map (fun r => (Some (ICD_TN r), CSRSS_Either r)) (rows df)))
            <> 4%nat
     end.
Proof.
  split; apply chi2_of_counts; intros n Hn;
    eapply grouped_counts_positive; exact Hn.
Qed.

End ChiSquareMore.

(** * The printed degrees of freedom against Welch's *)

Module WelchMore.
Import Welch.
Local Open Scope Q_scope.

(** The inequality behind the comparison: for positive [p] and [q],
    [(x + y)^2 <= (p + q) (x^2 / p + y^2 / q)]. *)
Lemma pooled_bound (x y p q : Q) :
  0 < p -> 0 < q ->
  (x + y) * (x + y) <= (p + q) * (x * x / p + y * y / q).
Proof.
  intros Hp Hq.
  assert (Hgap : (p + q) * (x * x / p + y * y / q) - (x + y) * (x + y)
                 == (q * x - p * y) * (q * x - p * y) / (p * q)).
  { field. split; lra. }
  assert (Hsq : 0 <= (q * x - p * y) * (q * x - p * y)).
  { destruct (Qlt_le_dec (q * x - p * y) 0) as [Hneg|Hpos].
    - assert (Hs : (q * x - p * y) * (q * x - p * y)
                   == (- (q * x - p * y)) * (- (q * x - p * y))) by ring.
      rewrite Hs. apply Qmult_le_0_compat; lra.
    - now apply Qmult_le_0_compat. }
  assert (Hpq : 0 < p * q) by now apply Qmult_lt_0_compat.
  assert (Hnn : 0 <= (q * x - p * y) * (q * x - p * y) / (p * q)).
  { apply Qle_shift_div_l; [exact Hpq|]. now rewrite Qmult_0_l. }
  lra.
Qed.

Lemma Qlen_minus_one (xs : list Q) :
  (2 <= length xs)%nat -> 0 < Qlen xs - 1.
Proof.
  intros Hn. unfold Qlen, Qn, Qlt, Qminus, Qplus, Qopp. simpl. lia.
Qed.

Lemma printed_dof_sum (a b : list Q) :
  inject_Z (printed_dof a b) == (Qlen a - 1) + (Qlen b - 1).
Proof.
  unfold printed_dof, Qlen, Qn.
  replace (Z.of_nat (length a) + Z.of_nat (length b) - 2)%Z
    with ((Z.of_nat (length a) + -1) + (Z.of_nat (length b) + -1))%Z by lia.
  rewrite !inject_Z_plus. reflexivity.
Qed.

Lemma square_over_positive (x p : Q) : 0 < p -> 0 <= x * x / p.
Proof.
  intros Hp. apply Qle_shift_div_l; [exact Hp|]. rewrite Qmult_0_l.
  destruct (Qlt_le_dec x 0) as [Hneg|Hpos].
  - assert (Hs : x * x == (- x) * (- x)) by ring.
    rewrite Hs. apply Qmult_le_0_compat; lra.
  - now apply Qmult_le_0_compat.
Qed.

(** X13. For two subgroups of at least two values each, the degrees of
    freedom that the notebook prints are never below Welch's: the printed
    t(df) can only overstate the degrees of freedom of the test that was
    run. *)
Theorem printed_dof_bounds_welch (a b : list Q)
  (Ha : (2 <= length a)%nat) (Hb : (2 <= length b)%nat) :
  welch_dof a b <= inject_Z (printed_dof a b).
Proof.
  pose proof (Qlen_minus_one a Ha) as Hp.
  pose proof (Qlen_minus_one b Hb) as Hq.
  rewrite printed_dof_sum. unfold welch_dof.
  set (x := var a / Qlen a). set (y := var b / Qlen b).
  set (p := Qlen a - 1) in *. set (q := Qlen b - 1) in *.
  pose proof (square_over_positive x p Hp) as Hx.
  pose proof (square_over_positive y q Hq) as Hy.
  destruct (Qeq_dec (x * x / p + y * y / q) 0) as [Hz|Hnz].
  - unfold Qdiv at 1. rewrite Hz. change (/ 0) with 0. lra.
  - apply Qle_shift_div_r.
    + destruct (Qle_lt_or_eq 0 (x * x / p + y * y / q)) as [Hlt|Heq];
        [lra|exact Hlt|]. exfalso. apply Hnz. now symmetry.
    + apply pooled_bound; assumption.
Qed.

Lemma printed_dof_bounds_welch_witness :
  (welch_dof [0; 10] [5; 5; 5; 5; 6] <= 5).
Proof.
  apply (printed_dof_bounds_welch [0; 10] [5; 5; 5; 5; 6]); simpl; lia.
Defined.

End WelchMore.

(** * Recall at the two thresholds *)

Module ReportFacts.
Import Classifier Report.
Local Open Scope Q_scope.

Section Threshold.
Context {Sample : Type}.
Variable decision_function : Sample -> Q.
Variable expit : Q -> Q.
Hypothesis expit_half : forall z, 0 < z -> 1 # 2 <= expit z.

(** Against any true labels, the lower threshold finds at least the
    positives of the default one and at most its negatives. *)
Lemma hits_move_with_threshold (X_test : list Sample) (y_test : list Z) :
  (true_positives y_test (y_pred_default decision_function X_test) 1
   <= true_positives y_test (y_pred_alt decision_function expit X_test) 1)%nat
  /\ (true_positives y_test (y_pred_alt decision_function expit X_test) 0
      <= true_positives y_test (y_pred_default decision_function X_test) 0)%nat.
Proof.
  unfold true_positives, y_pred_default, y_pred_alt, y_proba.
  revert y_test. induction X_test as [|x X_test IH]; intros [|y y_test];
    simpl; try lia.
  destruct (IH y_test) as [IH1 IH0].
  destruct (Qlt_le_dec 0 (decision_function x)) as [Hpos|Hneg].
  - assert (Hthr : Qle_bool threshold (expit (decision_function x)) = true).
    { apply Qle_bool_iff. apply Qle_trans with (1 # 2); [|now apply expit_half].
      unfold threshold. apply Qlt_le_weak. reflexivity. }
    rewrite Hthr. simpl.
    destruct (Z.eqb y 1), (Z.eqb y 0); simpl; lia.
  - destruct (Qle_bool _ _); simpl;
      destruct (Z.eqb y 1), (Z.eqb y 0); simpl; lia.
Qed.

End Threshold.

Lemma ratio_monotone (m n s : nat) :
  (m <= n)%nat -> Qn m / Qn s <= Qn n / Qn s.
Proof.
  intros Hmn. unfold Qdiv. apply Qmult_le_compat_r.
  - unfold Qn, Qle. simpl. lia.
  - apply Qinv_le_0_compat. unfold Qn, Qle. simpl. lia.
Qed.

(** X15. On a test split with one true label per example, both
    classification reports are computed, and moving the threshold from the
    default to 0.3 cannot lower the recall of the positive class nor raise
    the recall of the negative class. *)
Theorem recall_moves_with_threshold
  (Sample : Type) (decision_function : Sample -> Q) (expit : Q -> Q)
  (Hexpit : forall z, 0 < z -> 1 # 2 <= expit z)
  (X_test : list Sample) (y_test : list Z)
  (Hlen : length y_test = length X_test) :
  exists pos_default pos_alt neg_default neg_alt,
    recall y_test (y_pred_default decision_function X_test) 1 = Ret pos_default
    /\ recall y_test (y_pred_alt decision_function expit X_test) 1 = Ret pos_alt
    /\ recall y_test (y_pred_default decision_function X_test) 0 = Ret neg_default
    /\ recall y_test (y_pred_alt decision_function expit X_test) 0 = Ret neg_alt
    /\ pos_default <= pos_alt
    /\ neg_alt <= neg_default.
Proof.
  destruct (hits_move_with_threshold decision_function expit Hexpit X_test y_test)
    as [H1 H0].
  unfold recall.
  assert (Ld : length (y_pred_default decision_function X_test) = length y_test)
    by (unfold y_pred_default; now rewrite length_map).
  assert (La : length (y_pred_alt decision_function expit X_test) = length y_test)
    by (unfold y_pred_alt, y_proba; now rewrite !length_map).
  rewrite Ld, La, Nat.eqb_refl.
  do 4 eexists. repeat (split; [reflexivity|]).
  split; now apply ratio_monotone.
Qed.

Lemma recall_moves_with_threshold_witness :
  exists pos_default pos_alt,
    recall [1; 1; 0]%Z (y_pred_default (fun z : Q => z) Fixtures.decisions) 1
    = Ret pos_default
    /\ recall [1; 1; 0]%Z
         (y_pred_alt (fun z : Q => z) Fixtures.hard_sigmoid Fixtures.decisions) 1
       = Ret pos_alt
    /\ pos_default <= pos_alt.
Proof.
  destruct (recall_moves_with_threshold Q (fun z : Q => z) Fixtures.hard_sigmoid
              ClassifierFacts.hard_sigmoid_half Fixtures.decisions [1; 1; 0]%Z
              eq_refl)
    as [pd [pa [nd [na [H1 [H2 [_ [_ [H5 _]]]]]]]]].
  exists pd, pa. auto.
Defined.

End ReportFacts.

(** * When the silhouette sweep fails *)

Module SweepFacts.
Import Clustering.
Local Open Scope Q_scope.

Section Sweep.
Context {Point : Type}.
Variable dist : Point -> Point -> Q.
Variable KMeans_fit : nat -> list Point -> py (list nat).

(** The loop over [a, a + 1, ..., a + m - 1] from a list [acc]: it appends
    the scores of the first [n] values and stops, either at the end or at
    the first value whose body raises. *)
Lemma sweep_from_prefix (X : list Point) (m a : nat) (acc : list Q) :
  exists n,
    (n <= m)%nat
    /\ fst (sweep_from dist KMeans_fit X (seq a m) acc)
       = (acc ++ List.map (score_of dist KMeans_fit X) (seq a n))%list
    /\ (forall i, (i < n)%nat ->
          sweep_step dist KMeans_fit X (a + i)
          = Ret (score_of dist KMeans_fit X (a + i)))
    /\ (n = m -> snd (sweep_from dist KMeans_fit X (seq a m) acc) = None)
    /\ ((n < m)%nat ->
        exists e,
          snd (sweep_from dist KMeans_fit X (seq a m) acc) = Some e
          /\ sweep_step dist KMeans_fit X (a + n) = Raise e).
Proof.
  revert a acc. induction m as [|m IH]; intros a acc.
  - exists 0%nat. simpl. rewrite app_nil_r.
    repeat split; try reflexivity; intros; lia.
  - simpl. destruct (sweep_step dist KMeans_fit X a) as [s|e] eqn:Ha.
    + destruct (IH (S a) (acc ++ [s])%list) as [n [Hn [Hf [Hs [Hend Hstop]]]]].
      exists (S n). split; [lia|]. split; [|split; [|split]].
      * rewrite Hf. simpl. unfold score_of at 2. rewrite Ha.
        now rewrite <- app_assoc.
      * intros [|i] Hi.
        -- rewrite Nat.add_0_r. unfold score_of. now rewrite Ha.
        -- rewrite Nat.add_succ_r. apply (Hs i). lia.
      * intros Heq. apply Hend. lia.
      * intros Hlt. destruct (Hstop ltac:(lia)) as [e [He Hr]].
        exists e. split; [exact He|]. now rewrite Nat.add_succ_r.
    + exists 0%nat. simpl. rewrite app_nil_r.
      split; [lia|]. split; [reflexivity|]. split; [intros; lia|].
      split; [intros; lia|]. intros _. exists e.
      split; [reflexivity|]. now rewrite Nat.add_0_r.
Qed.

Lemma silhouette_score_small (X : list Point) (labels : list nat) :
  (length X <= 2)%nat -> silhouette_score dist X labels = Raise ValueError.
Proof.
  intros Hn. unfold silhouette_score.
  destruct (Nat.leb_spec 2 (length (nodup Nat.eq_dec labels)));
    destruct (Nat.ltb_spec (length (nodup Nat.eq_dec labels)) (length X));
    try lia; rewrite ?andb_false_r; reflexivity.
Qed.

End Sweep.

(** X16. The loop stops at the first k whose body raises.  The list
    [silhouette_scores] then holds, in order, exactly the scores appended
    for the smaller k, and the exception is the one of that k; the loop
    ends without an exception, with nine scores, when no k from 2 to 10
    raises.  On a cohort of at most two rows the body raises at k = 2 and
    the list stays empty, whatever the k-means fit returns. *)
Theorem sweep_stops_at_first_failure
  (Point : Type) (dist : Point -> Point -> Q)
  (KMeans_fit : nat -> list Point -> py (list nat)) (X : list Point) :
  (exists n,
      (n <= 9)%nat
      /\ length (fst (silhouette_sweep dist KMeans_fit X)) = n
      /\ (forall i, (i < n)%nat ->
            sweep_step dist KMeans_fit X (2 + i)
            = Ret (nth i (fst (silhouette_sweep dist KMeans_fit X)) 0))
      /\ (n = 9%nat -> snd (silhouette_sweep dist KMeans_fit X) = None)
      /\ ((n < 9)%nat ->
          exists e,
            snd (silhouette_sweep dist KMeans_fit X) = Some e
            /\ sweep_step dist KMeans_fit X (2 + n) = Raise e))
  /\ ((length X <= 2)%nat ->
      exists e, silhouette_sweep dist KMeans_fit X = ([], Some e)).
Proof.
  unfold silhouette_sweep, range. change (11 - 2)%nat with 9%nat.
  destruct (sweep_from_prefix dist KMeans_fit X 9 2 [])
    as [n [Hn [Hf [Hs [Hend Hstop]]]]].
  split.
  - exists n. rewrite Hf. simpl app.
    split; [exact Hn|]. split; [now rewrite length_map, length_seq|].
    split; [|split; assumption].
    intros i Hi.
    rewrite (nth_indep _ 0 (score_of dist KMeans_fit X 0%nat))
      by (rewrite length_map, length_seq; exact Hi).
    rewrite map_nth, seq_nth by exact Hi. now apply Hs.
  - intros Hsmall. simpl.
    unfold sweep_step at 1. destruct (KMeans_fit 2%nat X) as [labels|e]; simpl.
    + rewrite (silhouette_score_small dist X labels Hsmall). now exists ValueError.
    + now exists e.
Qed.

End SweepFacts.

(** * Figure 1A: moving the catch-all category to the end *)

Module FiguresFacts.
Import Cleaning Figures.

Lemma list_remove_absent (x : string) (l : list string) :
  ~ In x l -> list_remove x l = Raise ValueError.
Proof.
  induction l as [|h t IH]; intros Hnot; simpl; [reflexivity|].
  destruct (String.eqb_spec h x) as [->|Hne].
  - exfalso. apply Hnot. now left.
  - rewrite IH; [reflexivity|]. intros Hin. apply Hnot. now right.
Qed.

Lemma list_remove_present (x : string) (l : list string) :
  List.NoDup l -> In x l ->
  list_remove x l = Ret (List.filter (fun c => negb (String.eqb c x)) l).
Proof.
  induction 1 as [|h t Hh Hnd IH]; intros Hin; [contradiction|]. simpl.
  destruct (String.eqb_spec h x) as [->|Hne]; simpl.
  - f_equal. symmetry. apply forallb_filter_id. apply forallb_forall.
    intros c Hc. apply negb_true_iff. apply String.eqb_neq.
    intros ->. contradiction.
  - destruct Hin as [Heq|Hin]; [congruence|]. now rewrite (IH Hin).
Qed.

Lemma categories_present_In (df : DataFrame) (c : string) :
  In c (categories_present df) <->
  exists r, In r (rows df) /\ ICD_Clean r = Some c.
Proof.
  unfold categories_present.
  rewrite nodup_In, ChiSquareFacts.present_In, in_map_iff.
  split; intros [r [H1 H2]]; exists r; tauto.
Qed.

(** X17. Whatever order the bars come in, moving "Other" to the end
    raises [ValueError] when no row of the frame has a diagnosis of the
    "Other" category, and otherwise returns the categories that occur,
    each once, the others in their previous order and "Other" last. *)
Theorem other_moves_last (df : DataFrame) (order : list string)
  (Horder : Permutation order (categories_present df)) :
  ((forall r, In r (rows df) -> ICD_Clean r <> Some "Other") ->
   other_last order = Raise ValueError)
  /\ ((exists r, In r (rows df) /\ ICD_Clean r = Some "Other") ->
      other_last order
      = Ret (List.filter (fun c => negb (String.eqb c "Other")) order
             ++ ["Other"])%list).
Proof.
  assert (Hnd : List.NoDup order).
  { eapply Permutation_NoDup; [symmetry; exact Horder|].
    unfold categories_present. apply NoDup_nodup. }
  assert (Hin : In "Other" order <->
                exists r, In r (rows df) /\ ICD_Clean r = Some "Other").
  { rewrite <- categories_present_In.
    split; apply Permutation_in; [exact Horder|symmetry; exact Horder]. }
  unfold other_last. split.
  - intros Hnone. rewrite list_remove_absent; [reflexivity|].
    intros Ho. apply Hin in Ho. destruct Ho as [r [Hr Hc]].
    exact (Hnone r Hr Hc).
  - intros Hsome. apply Hin in Hsome.
    now rewrite (list_remove_present "Other" order Hnd Hsome).
Qed.

Lemma other_moves_last_witness :
  Permutation (categories_present Fixtures.df_men_mostly_positive)
              (categories_present Fixtures.df_men_mostly_positive)
  /\ other_last (categories_present Fixtures.df_men_mostly_positive)
     = Raise ValueError.
Proof.
  split; [apply Permutation_refl|].
  apply (other_moves_last Fixtures.df_men_mostly_positive
           (categories_present Fixtures.df_men_mostly_positive)
           (Permutation_refl _)).
  intros r Hr. simpl in Hr.
  repeat (destruct Hr as [<-|Hr]; [vm_compute; discriminate|]). contradiction.
Defined.

End FiguresFacts.

(** * Demographic counts *)

Module DemographicsFacts.
Import Demographics.

Lemma nodup_length_string (l : list string) :
  (length (nodup String.string_dec l) <= length l)%nat.
Proof.
  induction l as [|x l IH]; simpl; [lia|].
  destruct (in_dec _ _ _); simpl; lia.
Qed.

Lemma nodup_full_length (l : list string) :
  length (nodup String.string_dec l) = length l <-> List.NoDup l.
Proof.
  split.
  - induction l as [|x l IH]; simpl; intros Hlen; [constructor|].
    pose proof (nodup_length_string l).
    destruct (in_dec String.string_dec x l) as [Hin|Hnot]; [lia|].
    simpl in Hlen. constructor; [exact Hnot|]. apply IH. lia.
  - intros Hnd. now rewrite nodup_fixed_point.
Qed.

(** X18. The patient count never exceeds the entry count and equals it
    exactly when no patient identifier repeats; the female count is a
    count of rows, bounded by the entry count, and bounded by the patient
    count, by which the printed female percentage divides it, when no
    identifier repeats. *)
Theorem demographic_counts (df : DataFrame) :
  (n_patients df <= n_entries df)%nat
  /\ (n_female df <= n_entries df)%nat
  /\ (n_patients df = n_entries df <-> List.NoDup (List.map PAT_ID (rows df)))
  /\ (List.NoDup (List.map PAT_ID (rows df)) ->
      (n_female df <= n_patients df)%nat).
Proof.
  unfold n_patients, n_entries, n_female.
  assert (Hrows : length (List.map PAT_ID (rows df)) = length df)
    by (unfold rows; now rewrite !length_map).
  assert (Hf : (length (List.filter is_female (rows df)) <= length df)%nat).
  { rewrite <- (length_map snd df). apply filter_length_le. }
  pose proof (nodup_length_string (List.map PAT_ID (rows df))) as Hle.
  repeat split.
  - lia.
  - exact Hf.
  - intros Heq. apply nodup_full_length. lia.
  - intros Hnd. apply nodup_full_length in Hnd. lia.
  - intros Hnd. apply nodup_full_length in Hnd. lia.
Qed.

End DemographicsFacts.

(** * The diagnosis frequency table *)

Module FrequenciesFacts.
Import Cleaning Figures Frequencies.

Lemma present_split (col : list (option string)) :
  (length (ChiSquare.present col)
   + length (List.filter (fun o => match o with
                                   | Some _ => false
                                   | None => true
                                   end) col) = length col)%nat.
Proof.
  induction col as [|[c|] col IH]; simpl; lia.
Qed.

(** X19. The diagnosis frequency table has one positive count per
    category that occurs, at most seven of them, all among the seven
    category codes; its counts add up to the number of rows with a mapped
    diagnosis, so the rows with an unmapped or missing diagnosis are
    missing from the table without notice. *)
Theorem dx_counts_total (df : DataFrame) :
  (list_sum (List.map (dx_count df) (categories_present df))
   + n_uncategorised df = Demographics.n_entries df)%nat
  /\ (forall c, In c (categories_present df) ->
                (0 < dx_count df c)%nat /\ In c categories)
  /\ (length (categories_present df) <= 7)%nat.
Proof.
  split; [|split].
  - unfold dx_count, categories_present.
    rewrite (ChiSquareMore.count_occ_total String.string_dec);
      [|apply NoDup_nodup|intros v Hv; now apply nodup_In].
    unfold n_uncategorised, Demographics.n_entries.
    pose proof (present_split (List.map ICD_Clean (rows df))) as Hs.
    rewrite length_map in Hs. unfold rows in *. rewrite length_map in Hs.
    rewrite <- Hs. f_equal.
    clear Hs. induction (List.map snd df) as [|r l IH]; simpl; [reflexivity|].
    destruct (ICD_Clean r); simpl; now rewrite IH.
  - intros c Hc. split.
    + unfold dx_count. apply (count_occ_In String.string_dec).
      unfold categories_present in Hc. now apply nodup_In in Hc.
    + apply FiguresFacts.categories_present_In in Hc.
      destruct Hc as [r [_ Hr]]. unfold ICD_Clean in Hr.
      destruct (D_ICD_DESC r) as [s|]; [|discriminate].
      eapply CleaningFacts.ICD_map_closed. exact Hr.
  - change 7%nat with (length categories).
    apply NoDup_incl_length; [unfold categories_present; apply NoDup_nodup|].
    intros c Hc. apply FiguresFacts.categories_present_In in Hc.
    destruct Hc as [r [_ Hr]]. unfold ICD_Clean in Hr.
    destruct (D_ICD_DESC r) as [s|]; [|discriminate].
    eapply CleaningFacts.ICD_map_closed. exact Hr.
Qed.

End FrequenciesFacts.

(** * What the cohort filter looks at *)

Module CohortColumns.
Import Pandas BPI Columns CohortFacts CohortMore.

Lemma missing_index_relabel (f : Row -> Row) (cols : list string) (d : DataFrame) :
  (forall r c, bpi (f r) c = bpi r c) ->
  missing_index cols (relabel f d) = missing_index cols d.
Proof.
  intros Hbpi. unfold missing_index, index, relabel.
  induction d as [|ir d IH]; simpl; [reflexivity|].
  assert (Hsel : select cols (f (snd ir)) = select cols (snd ir)).
  { unfold select. apply List.map_ext. intros c. apply Hbpi. }
  rewrite Hsel. destruct (any_null _); simpl; now rewrite IH.
Qed.

(** X20. The cohort filter reads the questionnaire columns only: changing
    any other field of the rows (age, sex, diagnosis, screening answers)
    before filtering gives the same cohort as changing it afterwards, so
    rows with a missing age or sex are not excluded and the cohort does
    not depend on the cleaning of the other columns. *)
Theorem cohort_filter_ignores_other_columns
  (f : Row -> Row) (cols : list string) (d : DataFrame)
  (Hbpi : forall r c, bpi (f r) c = bpi r c) :
  cohort_filter cols (relabel f d) = relabel f (cohort_filter cols d)
  /\ index (cohort_filter cols (relabel f d)) = index (cohort_filter cols d).
Proof.
  assert (Heq : cohort_filter cols (relabel f d)
                = relabel f (cohort_filter cols d)).
  { unfold cohort_filter. rewrite (missing_index_relabel f cols d Hbpi).
    generalize (missing_index cols d) as labels. intros labels.
    unfold drop, relabel.
    induction d as [|ir d IH]; simpl; [reflexivity|].
    destruct (negb _); simpl; now rewrite IH. }
  split; [exact Heq|]. rewrite Heq. unfold index, relabel.
  rewrite List.map_map. reflexivity.
Qed.

Lemma cohort_filter_ignores_other_columns_witness :
  index (amb_df (relabel without_age Fixtures.df_one_incomplete))
  = index (amb_df Fixtures.df_one_incomplete).
Proof.
  apply (cohort_filter_ignores_other_columns without_age amb_any
           Fixtures.df_one_incomplete).
  intros r c. reflexivity.
Defined.

End CohortColumns.


(** * Which rows each statistic is computed over *)

Module FramesFacts.
Import Pandas Cleaning BPI ML Demographics Screening ChiSquare Frames.










End FramesFacts.
